(** * The change ledger of [common/commit.cpp] (class [COMMIT])

    A shallow embedding of the staging operations of [COMMIT] and the
    properties its specification states about them.

    Pointers ([EDA_ITEM*], [BASE_SCREEN*]) are addresses in [N], [nullptr]
    is [0].  [CHANGE_TYPE] values are the integers the code manipulates with
    [&] and [|].  [m_changes] (a [std::vector<COMMIT_LINE>]) is a list in
    insertion order and [m_changedItems] (a [std::set<EDA_ITEM*>]) a [gset].

    The code has three kinds of effect besides the two members: it calls
    [delete] on snapshots, it obtains snapshots from the pure virtual
    [makeImage], and it reports failed [wxASSERT]s.  They are kept in a
    [WORLD] that every operation threads through. *)

From stdpp Require Import base decidable option list gmap sets.
From Stdlib Require Import ZArith Lia.

Local Open Scope Z_scope.

(** ** Data model *)

Abbreviation ptr := N (only parsing).

Definition nullptr : ptr := 0%N.

(** [!!p] of the source: a pointer in a boolean context. *)
Definition is_set (p : ptr) : bool := negb (p =? nullptr)%N.

(** [struct COMMIT_LINE]. *)
Record COMMIT_LINE := mkLine {
  m_item : ptr;     (* EDA_ITEM*    : the affected item, borrowed *)
  m_type : Z;       (* CHANGE_TYPE  : kind | flags *)
  m_copy : ptr;     (* EDA_ITEM*    : owned snapshot, or nullptr *)
  m_screen : ptr    (* BASE_SCREEN* : container, or nullptr *)
}.

(** The two data members of [COMMIT]. *)
Record COMMIT := mkCommit {
  m_changes : list COMMIT_LINE;
  m_changedItems : gset N
}.

(** The call sites of [wxASSERT] and [wxFAIL] in the file. *)
Inductive wx_site :=
| WX_STAGE_MODIFY_DONE     (* Stage: CHT_MODIFY with CHT_DONE *)
| WX_STAGE_ADD_TOUCHED     (* Stage: CHT_ADD of an item of m_changedItems *)
| WX_STAGE_CLONE           (* Stage: makeImage gave nullptr *)
| WX_STAGE_FAIL            (* Stage: default branch of the switch *)
| WX_MAKEENTRY_COPY.       (* makeEntry: copy present iff CHT_MODIFY *)

(** What the code acts on: the ledger itself, the free store as far as the
    ledger sees it, and the assertion reports. *)
Record WORLD := mkWorld {
  self : COMMIT;
  heap_allocated : list N;   (* snapshots handed out so far, newest first *)
  heap_deleted : list N;     (* one entry per [delete] of a non-null pointer *)
  wx_reported : list wx_site (* failed wxASSERT / wxFAIL, oldest first *)
}.

Definition COMMIT_new : COMMIT := mkCommit [] ∅.

Definition world0 : WORLD := mkWorld COMMIT_new [] [] [].

(** The enumerators of [CHANGE_TYPE] come from [commit.h], which is not among
    the sources at hand; they are taken as parameters. *)
Record CHANGE_TYPE_enum := mkCHT {
  CHT_ADD : Z;
  CHT_REMOVE : Z;
  CHT_MODIFY : Z;
  CHT_TYPE : Z;
  CHT_DONE : Z;
  CHT_FLAGS : Z
}.

(** What the code relies on: the three kinds are distinct [case] labels that
    lie inside the [CHT_TYPE] mask, and the flag mask is disjoint from it. *)
Record CHANGE_TYPE_ok (c : CHANGE_TYPE_enum) : Prop := mkCHTok {
  cht_add_remove : CHT_ADD c ≠ CHT_REMOVE c;
  cht_add_modify : CHT_ADD c ≠ CHT_MODIFY c;
  cht_remove_modify : CHT_REMOVE c ≠ CHT_MODIFY c;
  cht_add_type : Z.land (CHT_ADD c) (CHT_TYPE c) = CHT_ADD c;
  cht_remove_type : Z.land (CHT_REMOVE c) (CHT_TYPE c) = CHT_REMOVE c;
  cht_modify_type : Z.land (CHT_MODIFY c) (CHT_TYPE c) = CHT_MODIFY c;
  cht_flags_type : Z.land (CHT_FLAGS c) (CHT_TYPE c) = 0
}.

(** The values KiCad gives them, used for the concrete runs below. *)
Definition kicad_cht : CHANGE_TYPE_enum :=
  {| CHT_ADD := 1; CHT_REMOVE := 2; CHT_MODIFY := 4; CHT_TYPE := 7;
     CHT_DONE := 8; CHT_FLAGS := 8 |}.

(** [enum class UNDO_REDO] is declared outside the sources at hand; the four
    enumerators the code names are kept, the others are [OTHER]. *)
Inductive UNDO_REDO :=
| UNSPECIFIED
| CHANGED
| NEWITEM
| DELETED
| OTHER (code : N).

(** One entry of a [PICKED_ITEMS_LIST], as the code reads it with
    [GetPickedItem], [GetPickedItemStatus] and [GetPickedItemLink]. *)
Record ITEM_PICKER := mkPicker {
  picked_item : ptr;
  picked_status : UNDO_REDO;
  picked_link : ptr
}.

(** ** The state monad of the operations *)

Definition M (A : Type) : Type := WORLD → A * WORLD.

Definition ret {A} (a : A) : M A := λ w, (a, w).

Definition bind {A B} (c : M A) (k : A → M B) : M B :=
  λ w, k (c w).1 (c w).2.

Notation "x <- c ;; k" := (bind c (λ x, k))
  (at level 20, c at level 99, k at level 200, only parsing).
Notation "c ;; k" := (bind c (λ _, k))
  (at level 100, k at level 200, right associativity, only parsing).

Definition exec {A} (c : M A) (w : WORLD) : WORLD := snd (c w).

Definition get_self : M COMMIT := λ w, (self w, w).

Definition put_self (s : COMMIT) : M unit :=
  λ w, (tt, mkWorld s (heap_allocated w) (heap_deleted w) (wx_reported w)).

(** [wxASSERT( cond )]: a failed condition is reported and execution goes
    on, as the code after each of them shows. *)
Definition wxASSERT (site : wx_site) (cond : bool) : M unit :=
  λ w, if cond then (tt, w)
       else (tt, mkWorld (self w) (heap_allocated w) (heap_deleted w)
                         (wx_reported w ++ [site])).

(** [delete p]: nothing for [nullptr], else the object is released. *)
Definition delete (p : ptr) : M unit :=
  λ w, if is_set p
       then (tt, mkWorld (self w) (heap_allocated w) (p :: heap_deleted w)
                         (wx_reported w))
       else (tt, w).

(** [alg::delete_if( container, pred )] is declared in [core/kicad_algo.h],
    outside the sources at hand. *)
(** Modelled from the spec: [alg::delete_if], which makes the supersede rule
    "remove every existing record in the ledger whose (item, screen) pair
    exactly matches": the elements that satisfy the predicate leave the
    vector and the others keep their order.  It receives the vector and a
    predicate on [const COMMIT_LINE&] only, so the [m_copy] of an erased
    record is not passed to [delete] by it. *)
Definition delete_if {A} (pred : A → bool) (c : list A) : list A :=
  List.filter (λ x, negb (pred x)) c.

(** An allocator for the concrete runs: the address after the highest one
    in use. *)
Definition bump (aItem : ptr) (allocated deleted : list N) : ptr :=
  N.succ (foldr N.max 0%N allocated).

(** A free store that is exhausted. *)
Definition no_memory (aItem : ptr) (allocated deleted : list N) : ptr :=
  nullptr.

(** ** The operations of [COMMIT] *)

Section COMMIT.

(** The enumerators of [commit.h]. *)
Variable cht : CHANGE_TYPE_enum.

(** [virtual EDA_ITEM* parentObject( EDA_ITEM* ) const = 0]. *)
Variable parentObject : ptr → ptr.

(** [virtual EDA_ITEM* makeImage( EDA_ITEM* ) const = 0]: the address of
    the clone it allocates, or [nullptr]; it may depend on the item and on
    the free store (what was allocated and what was deleted so far). *)
Variable makeImage : ptr → list N → list N → ptr.

(** Whether the build defines [NDEBUG] (the C [assert]s are then empty). *)
Variable NDEBUG : bool.

(** The call [makeImage( aItem )] with its effect on the free store. *)
Definition call_makeImage (aItem : ptr) : M ptr :=
  λ w, let clone := makeImage aItem (heap_allocated w) (heap_deleted w) in
       (clone,
        if is_set clone
        then mkWorld (self w) (clone :: heap_allocated w) (heap_deleted w)
                     (wx_reported w)
        else w).

(** The test [m_item == aItem && m_screen == aScreen] that [makeEntry]'s
    lambda and [findEntry] share. *)
Definition same_pair (aItem aScreen : ptr) (aEnt : COMMIT_LINE) : bool :=
  (m_item aEnt =? aItem)%N && (m_screen aEnt =? aScreen)%N.

(** [COMMIT::makeEntry]. *)
Definition makeEntry (aItem : ptr) (aType : Z) (aCopy aScreen : ptr)
  : M unit :=
  wxASSERT WX_MAKEENTRY_COPY
    (Bool.eqb (is_set aCopy) (Z.land aType (CHT_TYPE cht) =? CHT_MODIFY cht)) ;;
  s <- get_self ;;
  let changes :=
    if bool_decide (aItem ∈ m_changedItems s)
    then delete_if (same_pair aItem aScreen) (m_changes s)
    else m_changes s in
  let ent := mkLine aItem aType aCopy aScreen in
  put_self (mkCommit (changes ++ [ent]) ({[aItem]} ∪ m_changedItems s)).

(** [COMMIT::createModified]. *)
Definition createModified (aItem aCopy : ptr) (aExtraFlags : Z)
    (aScreen : ptr) : M unit :=
  let parent := parentObject aItem in
  s <- get_self ;;
  if bool_decide (parent ∈ m_changedItems s)
  then delete aCopy
  else makeEntry parent (Z.lor (CHT_MODIFY cht) aExtraFlags) aCopy aScreen.

(** [COMMIT::Stage( EDA_ITEM*, CHANGE_TYPE, BASE_SCREEN* )].  Its result,
    [*this], is the ledger of the world it leaves. *)
Definition Stage (aItem : ptr) (aChangeType : Z) (aScreen : ptr) : M unit :=
  wxASSERT WX_STAGE_MODIFY_DONE
    (negb (Z.land aChangeType (Z.lor (CHT_MODIFY cht) (CHT_DONE cht))
           =? Z.lor (CHT_MODIFY cht) (CHT_DONE cht))) ;;
  let flag := Z.land aChangeType (CHT_FLAGS cht) in
  let kind := Z.land aChangeType (CHT_TYPE cht) in
  if kind =? CHT_ADD cht then
    s <- get_self ;;
    wxASSERT WX_STAGE_ADD_TOUCHED
      (negb (bool_decide (aItem ∈ m_changedItems s))) ;;
    makeEntry aItem (Z.lor (CHT_ADD cht) flag) nullptr aScreen
  else if kind =? CHT_REMOVE cht then
    makeEntry aItem (Z.lor (CHT_REMOVE cht) flag) nullptr aScreen
  else if kind =? CHT_MODIFY cht then
    let parent := parentObject aItem in
    clone <- call_makeImage parent ;;
    wxASSERT WX_STAGE_CLONE (is_set clone) ;;
    if is_set clone
    then createModified parent clone flag aScreen
    else ret tt
  else
    wxASSERT WX_STAGE_FAIL false.

(** [COMMIT::Stage( std::vector<EDA_ITEM*>&, CHANGE_TYPE, BASE_SCREEN* )]. *)
Fixpoint Stage_vector (container : list ptr) (aChangeType : Z)
    (aScreen : ptr) : M unit :=
  match container with
  | [] => ret tt
  | item :: rest =>
      Stage item aChangeType aScreen ;;
      Stage_vector rest aChangeType aScreen
  end.

(** [COMMIT::findEntry]: the first record of the pair, [None] for the
    [nullptr] result. *)
Fixpoint findEntry_from (changes : list COMMIT_LINE) (aItem aScreen : ptr)
  : option COMMIT_LINE :=
  match changes with
  | [] => None
  | change :: rest =>
      if same_pair aItem aScreen change then Some change
      else findEntry_from rest aItem aScreen
  end.

Definition findEntry (aItem aScreen : ptr) : M (option COMMIT_LINE) :=
  s <- get_self ;;
  ret (findEntry_from (m_changes s) aItem aScreen).

(** [COMMIT::GetStatus]. *)
Definition GetStatus (aItem aScreen : ptr) : M Z :=
  entry <- findEntry (parentObject aItem) aScreen ;;
  ret (match entry with Some e => m_type e | None => 0 end).

(** [COMMIT::~COMMIT]. *)
Fixpoint delete_copies (changes : list COMMIT_LINE) : M unit :=
  match changes with
  | [] => ret tt
  | ent :: rest =>
      (if is_set (m_copy ent) then delete (m_copy ent) else ret tt) ;;
      delete_copies rest
  end.

Definition COMMIT_dtor : M unit :=
  s <- get_self ;;
  delete_copies (m_changes s).

(** [commit.h] defines [Modified( aItem, aCopy, aScreen )] inline; the
    header is not among the sources at hand. *)
(** Modelled from the spec: [COMMIT::Modified], by which the ledger "adopts
    this externally supplied snapshot directly via the create-modified
    path": [createModified] with the copy handed in and no extra flag. *)
Definition Modified (aItem aCopy aScreen : ptr) : M unit :=
  createModified aItem aCopy 0 aScreen.

(** The C [assert( cond )]: empty under [NDEBUG], else a failed condition
    aborts the program ([None]). *)
Definition c_assert (cond : bool) (w : WORLD) : option WORLD :=
  if NDEBUG || cond then Some w else None.

Definition is_CHANGED (t : UNDO_REDO) : bool :=
  match t with CHANGED => true | _ => false end.

(** [COMMIT::convert]: [None] when [assert( false )] aborts; under
    [NDEBUG] the [default] label falls through to [CHANGED]. *)
Definition convert (aType : UNDO_REDO) : option Z :=
  match aType with
  | NEWITEM => Some (CHT_ADD cht)
  | DELETED => Some (CHT_REMOVE cht)
  | CHANGED => Some (CHT_MODIFY cht)
  | _ => if NDEBUG then Some (CHT_MODIFY cht) else None
  end.

(** The body of the loop of
    [COMMIT::Stage( const PICKED_ITEMS_LIST&, UNDO_REDO, BASE_SCREEN* )]
    for one entry of the list. *)
Definition Stage_picker (p : ITEM_PICKER) (aModFlag : UNDO_REDO)
    (aScreen : ptr) (w : WORLD) : option WORLD :=
  let change_type :=
    match picked_status p with
    | UNSPECIFIED => aModFlag
    | t => t
    end in
  let item := picked_item p in
  let copy := picked_link p in
  if is_set copy then
    w1 ← c_assert (is_CHANGED change_type) w;
    Some (exec (Modified item copy aScreen) w1)
  else
    t ← convert change_type;
    Some (exec (Stage item t aScreen) w).

(** The loop itself, over the entries [0 .. GetCount() - 1] in order. *)
Fixpoint Stage_picked (aItems : list ITEM_PICKER) (aModFlag : UNDO_REDO)
    (aScreen : ptr) (w : WORLD) : option WORLD :=
  match aItems with
  | [] => Some w
  | p :: rest =>
      w1 ← Stage_picker p aModFlag aScreen w;
      Stage_picked rest aModFlag aScreen w1
  end.

(** ** Ledger states and what they own *)

(** The snapshots the records of a ledger hold, in record order. *)
Definition owned (c : COMMIT) : list ptr :=
  List.filter is_set (map m_copy (m_changes c)).

(** The pre-made clones a history list hands over, in list order. *)
Definition links (aItems : list ITEM_PICKER) : list ptr :=
  List.filter is_set (map picked_link aItems).

(** Every record is for a touched item. *)
Definition touched_covers (c : COMMIT) : Prop :=
  ∀ ent, ent ∈ m_changes c → m_item ent ∈ m_changedItems c.

(** The ledger and the callers that still hold the clones [ext] own
    distinct live clones: none is shared and none has been released. *)
Definition owns_lists (own ext allocated deleted : list ptr) : Prop :=
  NoDup (own ++ ext)
  ∧ (∀ p, p ∈ own ++ ext → p ∈ allocated ∧ p ∉ deleted)
  ∧ (∀ p, p ∈ deleted → p ∈ allocated).

Definition owns_ok (ext : list ptr) (w : WORLD) : Prop :=
  owns_lists (owned (self w)) ext (heap_allocated w) (heap_deleted w).

(** A caller that clones an item itself, as the makers of a history list
    do: the free store gives it a new object. *)
Definition caller_clone (p : ptr) (w : WORLD) : WORLD :=
  mkWorld (self w) (p :: heap_allocated w) (heap_deleted w) (wx_reported w).

(** The worlds a transaction goes through from a new [COMMIT], by calls of
    its public operations.  [P] is what is asked of a history list when it
    is handed in. *)
Inductive reachable (P : list ITEM_PICKER → WORLD → Prop) : WORLD → Prop :=
| reach_new :
    reachable P world0
| reach_caller_clone w p :
    reachable P w → is_set p = true → p ∉ heap_allocated w →
    reachable P (caller_clone p w)
| reach_Stage w aItem aChangeType aScreen :
    reachable P w →
    reachable P (exec (Stage aItem aChangeType aScreen) w)
| reach_Stage_vector w container aChangeType aScreen :
    reachable P w →
    reachable P (exec (Stage_vector container aChangeType aScreen) w)
| reach_Stage_picked w aItems aModFlag aScreen w' :
    reachable P w → P aItems w →
    Stage_picked aItems aModFlag aScreen w = Some w' →
    reachable P w'
| reach_GetStatus w aItem aScreen :
    reachable P w →
    reachable P (exec (GetStatus aItem aScreen) w).

(** No condition on the history lists. *)
Definition any_list (aItems : list ITEM_PICKER) (w : WORLD) : Prop := True.

(** The history list hands over clones that its maker owns. *)
Definition hands_over (aItems : list ITEM_PICKER) (w : WORLD) : Prop :=
  owns_ok (links aItems) w.

(** [makeImage] allocates: a clone it returns is a new object. *)
Definition makeImage_allocates : Prop :=
  ∀ aItem allocated deleted,
    is_set (makeImage aItem allocated deleted) = true →
    makeImage aItem allocated deleted ∉ allocated.

(** ** Well-formed ledgers *)

(** The (item, screen) pair a record is filed under. *)
Definition pair_of (ent : COMMIT_LINE) : N * N := (m_item ent, m_screen ent).

(** [( m_type & CHT_TYPE ) == CHT_MODIFY], the kind test of [makeEntry]. *)
Definition is_modify (ent : COMMIT_LINE) : bool :=
  Z.land (m_type ent) (CHT_TYPE cht) =? CHT_MODIFY cht.

(** What the operations keep of a ledger: every record is for a touched
    item, no two records are filed under the same pair, a record holds a
    snapshot exactly when its kind is [CHT_MODIFY], and no two records of
    that kind are for the same item. *)
Definition ledger_wf (c : COMMIT) : Prop :=
  touched_covers c
  ∧ NoDup (map pair_of (m_changes c))
  ∧ (∀ ent, ent ∈ m_changes c → is_set (m_copy ent) = is_modify ent)
  ∧ NoDup (map m_item (List.filter is_modify (m_changes c))).

(** The status the loop of the history list works with: the default takes
    the place of [UNSPECIFIED]. *)
Definition effective_status (aModFlag : UNDO_REDO) (p : ITEM_PICKER)
  : UNDO_REDO :=
  match picked_status p with
  | UNSPECIFIED => aModFlag
  | t => t
  end.

(** The entries that pass the two C [assert]s of the history list: with a
    link the status is [CHANGED], without one it is one of the three that
    [convert] names. *)
Definition picker_accepted (aModFlag : UNDO_REDO) (p : ITEM_PICKER) : bool :=
  if is_set (picked_link p)
  then is_CHANGED (effective_status aModFlag p)
  else match effective_status aModFlag p with
       | NEWITEM | DELETED | CHANGED => true
       | _ => false
       end.

(** ** Properties *)

Hypothesis cht_ok : CHANGE_TYPE_ok cht.

(** A kind with flags or-ed in still decodes to the kind. *)
Lemma kind_lor_flags K t :
  Z.land K (CHT_TYPE cht) = K →
  Z.land (Z.lor K (Z.land t (CHT_FLAGS cht))) (CHT_TYPE cht) = K.
Proof.
  intros HK.
  rewrite Z.land_lor_distr_l, HK, <- Z.land_assoc.
  rewrite (cht_flags_type cht cht_ok), Z.land_0_r.
  apply Z.lor_0_r.
Qed.

(** What [makeEntry] does to the world. *)
Lemma makeEntry_exec aItem aType aCopy aScreen w :
  exec (makeEntry aItem aType aCopy aScreen) w =
  mkWorld
    (mkCommit
       ((if bool_decide (aItem ∈ m_changedItems (self w))
         then delete_if (same_pair aItem aScreen) (m_changes (self w))
         else m_changes (self w))
        ++ [mkLine aItem aType aCopy aScreen])
       ({[aItem]} ∪ m_changedItems (self w)))
    (heap_allocated w) (heap_deleted w)
    (wx_reported w ++
     (if Bool.eqb (is_set aCopy)
           (Z.land aType (CHT_TYPE cht) =? CHT_MODIFY cht)
      then [] else [WX_MAKEENTRY_COPY])).
Proof.
  unfold exec, makeEntry, bind, get_self, put_self, wxASSERT. simpl.
  destruct (Bool.eqb _ _); simpl; [|done].
  by rewrite app_nil_r.
Qed.

Lemma wxASSERT_exec site cond w :
  exec (wxASSERT site cond) w =
  mkWorld (self w) (heap_allocated w) (heap_deleted w)
          (wx_reported w ++ (if cond then [] else [site])).
Proof.
  unfold exec, wxASSERT. destruct cond; simpl; [|done].
  rewrite app_nil_r. by destruct w.
Qed.

Lemma wxASSERT_true site w : exec (wxASSERT site true) w = w.
Proof. reflexivity. Qed.

Lemma call_makeImage_exec aItem w :
  exec (call_makeImage aItem) w =
  let clone := makeImage aItem (heap_allocated w) (heap_deleted w) in
  if is_set clone
  then mkWorld (self w) (clone :: heap_allocated w)
               (heap_deleted w) (wx_reported w)
  else w.
Proof. reflexivity. Qed.

Lemma exec_bind {A B} (c : M A) (k : A → M B) w :
  exec (bind c k) w = exec (k (c w).1) (exec c w).
Proof. reflexivity. Qed.

(** The three labels of the [switch] of [Stage]. *)
Lemma Stage_add aItem aChangeType aScreen w :
  Z.land aChangeType (CHT_TYPE cht) = CHT_ADD cht →
  exec (Stage aItem aChangeType aScreen) w =
  exec (makeEntry aItem
          (Z.lor (CHT_ADD cht) (Z.land aChangeType (CHT_FLAGS cht)))
          nullptr aScreen)
    (exec (wxASSERT WX_STAGE_ADD_TOUCHED
             (negb (bool_decide (aItem ∈ m_changedItems (self w)))))
       (exec (wxASSERT WX_STAGE_MODIFY_DONE
                (negb (Z.land aChangeType
                         (Z.lor (CHT_MODIFY cht) (CHT_DONE cht))
                       =? Z.lor (CHT_MODIFY cht) (CHT_DONE cht)))) w)).
Proof.
  intros Hk. unfold Stage. rewrite Hk, Z.eqb_refl.
  rewrite exec_bind. set (w1 := exec (wxASSERT WX_STAGE_MODIFY_DONE _) w).
  rewrite exec_bind. simpl.
  rewrite exec_bind.
  replace (self w1) with (self w); [done|].
  subst w1. by rewrite wxASSERT_exec.
Qed.

Lemma Stage_remove aItem aChangeType aScreen w :
  Z.land aChangeType (CHT_TYPE cht) = CHT_REMOVE cht →
  exec (Stage aItem aChangeType aScreen) w =
  exec (makeEntry aItem
          (Z.lor (CHT_REMOVE cht) (Z.land aChangeType (CHT_FLAGS cht)))
          nullptr aScreen)
    (exec (wxASSERT WX_STAGE_MODIFY_DONE
             (negb (Z.land aChangeType
                      (Z.lor (CHT_MODIFY cht) (CHT_DONE cht))
                    =? Z.lor (CHT_MODIFY cht) (CHT_DONE cht)))) w).
Proof.
  intros Hk. unfold Stage. rewrite Hk, Z.eqb_refl.
  pose proof (cht_add_remove cht cht_ok) as Hne.
  destruct (Z.eqb_spec (CHT_REMOVE cht) (CHT_ADD cht)); [congruence|].
  by rewrite exec_bind.
Qed.

Lemma Stage_modify aItem aChangeType aScreen w :
  Z.land aChangeType (CHT_TYPE cht) = CHT_MODIFY cht →
  exec (Stage aItem aChangeType aScreen) w =
  let w1 := exec (wxASSERT WX_STAGE_MODIFY_DONE
             (negb (Z.land aChangeType
                      (Z.lor (CHT_MODIFY cht) (CHT_DONE cht))
                    =? Z.lor (CHT_MODIFY cht) (CHT_DONE cht)))) w in
  let parent := parentObject aItem in
  let clone := makeImage parent (heap_allocated w) (heap_deleted w) in
  if is_set clone
  then exec (createModified parent clone
               (Z.land aChangeType (CHT_FLAGS cht)) aScreen)
         (mkWorld (self w1) (clone :: heap_allocated w1) (heap_deleted w1)
                  (wx_reported w1))
  else exec (wxASSERT WX_STAGE_CLONE false) w1.
Proof.
  intros Hk. unfold Stage. rewrite Hk, Z.eqb_refl.
  pose proof (cht_add_modify cht cht_ok) as Hne.
  pose proof (cht_remove_modify cht cht_ok) as Hne'.
  destruct (Z.eqb_spec (CHT_MODIFY cht) (CHT_ADD cht)); [congruence|].
  destruct (Z.eqb_spec (CHT_MODIFY cht) (CHT_REMOVE cht)); [congruence|].
  rewrite exec_bind. set (w1 := exec (wxASSERT WX_STAGE_MODIFY_DONE _) w).
  simpl. rewrite exec_bind.
  assert (Hh : heap_allocated w1 = heap_allocated w
               ∧ heap_deleted w1 = heap_deleted w).
  { subst w1. by rewrite wxASSERT_exec. }
  destruct Hh as [Ha Hd].
  change ((call_makeImage (parentObject aItem) w1).1)
    with (makeImage (parentObject aItem) (heap_allocated w1)
            (heap_deleted w1)).
  rewrite exec_bind, (call_makeImage_exec _ w1). simpl.
  rewrite Ha, Hd.
  destruct (is_set (makeImage (parentObject aItem) _ _)) eqn:Hc.
  - by rewrite wxASSERT_true.
  - done.
Qed.

Lemma createModified_exec aItem aCopy aExtraFlags aScreen w :
  exec (createModified aItem aCopy aExtraFlags aScreen) w =
  if bool_decide (parentObject aItem ∈ m_changedItems (self w))
  then exec (delete aCopy) w
  else exec (makeEntry (parentObject aItem)
               (Z.lor (CHT_MODIFY cht) aExtraFlags) aCopy aScreen) w.
Proof.
  unfold createModified. rewrite exec_bind. simpl.
  by destruct (bool_decide _).
Qed.

Lemma delete_exec p w :
  exec (delete p) w =
  if is_set p
  then mkWorld (self w) (heap_allocated w) (p :: heap_deleted w)
               (wx_reported w)
  else w.
Proof. unfold exec, delete. by destruct (is_set p). Qed.

(** *** The scoped lookup *)

Lemma same_pair_true aItem aScreen ent :
  same_pair aItem aScreen ent = true ↔
  m_item ent = aItem ∧ m_screen ent = aScreen.
Proof.
  unfold same_pair. rewrite andb_true_iff, !N.eqb_eq. done.
Qed.

Lemma same_pair_false aItem aScreen ent :
  same_pair aItem aScreen ent = false ↔
  ¬ (m_item ent = aItem ∧ m_screen ent = aScreen).
Proof.
  rewrite <- same_pair_true. by destruct (same_pair _ _ _).
Qed.

Lemma findEntry_from_first changes aItem aScreen :
  match findEntry_from changes aItem aScreen with
  | Some ent =>
      ∃ before after,
        changes = before ++ ent :: after
        ∧ (∀ e, e ∈ before → same_pair aItem aScreen e = false)
        ∧ same_pair aItem aScreen ent = true
  | None => ∀ e, e ∈ changes → same_pair aItem aScreen e = false
  end.
Proof.
  induction changes as [|c changes IH]; simpl.
  - intros e He. by apply elem_of_nil in He.
  - destruct (same_pair aItem aScreen c) eqn:Hc.
    + exists [], changes. split; [done|]. split; [|done].
      intros e He. by apply elem_of_nil in He.
    + destruct (findEntry_from changes aItem aScreen) as [ent|].
      * destruct IH as (before & after & -> & Hb & He).
        exists (c :: before), after. split; [done|]. split; [|done].
        intros e [->|Hin]%elem_of_cons; auto.
      * intros e [->|Hin]%elem_of_cons; auto.
Qed.

(** C9: [GetStatus( aItem, aScreen )] returns the [m_type] of the first
    record, in staging order, whose item is [parentObject( aItem )] and
    whose screen is [aScreen], and 0 ("no change") when there is no such
    record; the ledger, the free store and the assertion reports are the
    same after the call as before it. *)
Theorem GetStatus_first_record_readonly aItem aScreen w :
  (GetStatus aItem aScreen w).2 = w
  ∧ ((∃ before ent after,
        m_changes (self w) = before ++ ent :: after
        ∧ (∀ e, e ∈ before →
                ¬ (m_item e = parentObject aItem ∧ m_screen e = aScreen))
        ∧ m_item ent = parentObject aItem
        ∧ m_screen ent = aScreen
        ∧ (GetStatus aItem aScreen w).1 = m_type ent)
     ∨ ((∀ e, e ∈ m_changes (self w) →
              ¬ (m_item e = parentObject aItem ∧ m_screen e = aScreen))
        ∧ (GetStatus aItem aScreen w).1 = 0)).
Proof.
  split; [reflexivity|].
  unfold GetStatus, findEntry, bind, ret, get_self. simpl.
  pose proof (findEntry_from_first (m_changes (self w))
                (parentObject aItem) aScreen) as H.
  destruct (findEntry_from _ _ _) as [ent|].
  - left. destruct H as (before & after & Heq & Hb & He).
    apply same_pair_true in He as [Hi Hs].
    exists before, ent, after. repeat split; try done.
    intros e Hin. by apply same_pair_false, Hb.
  - right. split; [|done].
    intros e Hin. by apply same_pair_false, H.
Qed.

(** *** Superseding *)

Lemma delete_if_app {A} (f : A → bool) l1 l2 :
  delete_if f (l1 ++ l2) = delete_if f l1 ++ delete_if f l2.
Proof. apply List.filter_app. Qed.

Lemma filter_delete_if {A} (f : A → bool) l :
  List.filter f (delete_if f l) = [].
Proof.
  induction l as [|x l IH]; [done|].
  unfold delete_if in *. simpl.
  destruct (f x) eqn:Hx; simpl; [done|]. by rewrite Hx.
Qed.

Lemma delete_if_idem {A} (f : A → bool) l :
  delete_if f (delete_if f l) = delete_if f l.
Proof.
  induction l as [|x l IH]; [done|].
  unfold delete_if in *. simpl.
  destruct (f x) eqn:Hx; simpl; [done|]. rewrite Hx. simpl. by f_equal.
Qed.

Lemma filter_other_delete_if {A} (f g : A → bool) l :
  (∀ x, g x = true → f x = false) →
  List.filter g (delete_if f l) = List.filter g l.
Proof.
  intros Hfg. induction l as [|x l IH]; [done|].
  unfold delete_if in *. simpl.
  destruct (f x) eqn:Hx; simpl.
  - destruct (g x) eqn:Hg; [|done]. apply Hfg in Hg. congruence.
  - by rewrite IH.
Qed.

Lemma Stage_add_self aItem aChangeType aScreen w :
  Z.land aChangeType (CHT_TYPE cht) = CHT_ADD cht →
  self (exec (Stage aItem aChangeType aScreen) w) =
  mkCommit
    ((if bool_decide (aItem ∈ m_changedItems (self w))
      then delete_if (same_pair aItem aScreen) (m_changes (self w))
      else m_changes (self w))
     ++ [mkLine aItem
           (Z.lor (CHT_ADD cht) (Z.land aChangeType (CHT_FLAGS cht)))
           nullptr aScreen])
    ({[aItem]} ∪ m_changedItems (self w)).
Proof.
  intros Hk. rewrite Stage_add by done.
  rewrite makeEntry_exec, !wxASSERT_exec. done.
Qed.

Lemma Stage_remove_self aItem aChangeType aScreen w :
  Z.land aChangeType (CHT_TYPE cht) = CHT_REMOVE cht →
  self (exec (Stage aItem aChangeType aScreen) w) =
  mkCommit
    ((if bool_decide (aItem ∈ m_changedItems (self w))
      then delete_if (same_pair aItem aScreen) (m_changes (self w))
      else m_changes (self w))
     ++ [mkLine aItem
           (Z.lor (CHT_REMOVE cht) (Z.land aChangeType (CHT_FLAGS cht)))
           nullptr aScreen])
    ({[aItem]} ∪ m_changedItems (self w)).
Proof.
  intros Hk. rewrite Stage_remove by done.
  rewrite makeEntry_exec, !wxASSERT_exec. done.
Qed.

(** C2: from any ledger state, [Stage( item, CHT_ADD | f, screenA )]
    followed by [Stage( item, CHT_REMOVE | g, screenA )] leaves exactly one
    record of the pair (item, screenA); it has no snapshot and its kind is
    [CHT_REMOVE].  The records of every other pair are the ones there were
    before, in the same order: in particular those of (item, screenB) for a
    screenB other than screenA. *)
Theorem Stage_add_then_remove_supersedes aItem tyAdd tyRemove screenA w :
  Z.land tyAdd (CHT_TYPE cht) = CHT_ADD cht →
  Z.land tyRemove (CHT_TYPE cht) = CHT_REMOVE cht →
  let w' := exec (Stage aItem tyAdd screenA ;;
                  Stage aItem tyRemove screenA) w in
  let removal :=
    mkLine aItem
      (Z.lor (CHT_REMOVE cht) (Z.land tyRemove (CHT_FLAGS cht)))
      nullptr screenA in
  List.filter (same_pair aItem screenA) (m_changes (self w')) = [removal]
  ∧ Z.land (m_type removal) (CHT_TYPE cht) = CHT_REMOVE cht
  ∧ delete_if (same_pair aItem screenA) (m_changes (self w'))
    = delete_if (same_pair aItem screenA) (m_changes (self w))
  ∧ ∀ screenB, screenB ≠ screenA →
      List.filter (same_pair aItem screenB) (m_changes (self w'))
      = List.filter (same_pair aItem screenB) (m_changes (self w)).
Proof.
  intros Hadd Hrem w' removal.
  assert (Hself : same_pair aItem screenA removal = true).
  { apply same_pair_true. done. }
  assert (Hchanges : m_changes (self w') =
    delete_if (same_pair aItem screenA) (m_changes (self w)) ++ [removal]).
  { subst w'. rewrite exec_bind.
    rewrite Stage_remove_self, Stage_add_self by done. simpl.
    rewrite bool_decide_eq_true_2 by set_solver.
    rewrite delete_if_app. f_equal.
    replace (delete_if (same_pair aItem screenA) [_]) with (@nil COMMIT_LINE).
    - rewrite app_nil_r.
      destruct (bool_decide _); [apply delete_if_idem|done].
    - unfold delete_if, same_pair. simpl. by rewrite !N.eqb_refl. }
  assert (Hrest : delete_if (same_pair aItem screenA) (m_changes (self w'))
    = delete_if (same_pair aItem screenA) (m_changes (self w))).
  { rewrite Hchanges, delete_if_app, delete_if_idem.
    unfold delete_if at 2. simpl. rewrite Hself. simpl. apply app_nil_r. }
  split; [|split; [|split]].
  - rewrite Hchanges, List.filter_app, filter_delete_if. simpl.
    by rewrite Hself.
  - simpl. apply kind_lor_flags, (cht_remove_type cht cht_ok).
  - done.
  - intros screenB Hne.
    assert (Hfg : ∀ x, same_pair aItem screenB x = true →
                       same_pair aItem screenA x = false).
    { intros x [Hi Hs]%same_pair_true. apply same_pair_false.
      intros [_ Hs']. congruence. }
    rewrite <- (filter_other_delete_if _ _ (m_changes (self w')) Hfg).
    rewrite <- (filter_other_delete_if _ _ (m_changes (self w)) Hfg).
    by rewrite Hrest.
Qed.

(** *** A case principle for [Stage] *)

Lemma Stage_default aItem aChangeType aScreen w :
  Z.land aChangeType (CHT_TYPE cht) ≠ CHT_ADD cht →
  Z.land aChangeType (CHT_TYPE cht) ≠ CHT_REMOVE cht →
  Z.land aChangeType (CHT_TYPE cht) ≠ CHT_MODIFY cht →
  exec (Stage aItem aChangeType aScreen) w =
  exec (wxASSERT WX_STAGE_FAIL false)
    (exec (wxASSERT WX_STAGE_MODIFY_DONE
             (negb (Z.land aChangeType
                      (Z.lor (CHT_MODIFY cht) (CHT_DONE cht))
                    =? Z.lor (CHT_MODIFY cht) (CHT_DONE cht)))) w).
Proof.
  intros Ha Hr Hm. unfold Stage.
  destruct (Z.eqb_spec (Z.land aChangeType (CHT_TYPE cht)) (CHT_ADD cht));
    [done|].
  destruct (Z.eqb_spec (Z.land aChangeType (CHT_TYPE cht)) (CHT_REMOVE cht));
    [done|].
  destruct (Z.eqb_spec (Z.land aChangeType (CHT_TYPE cht)) (CHT_MODIFY cht));
    [done|].
  by rewrite exec_bind.
Qed.

Lemma Stage_cases (Q : WORLD → Prop) aItem aChangeType aScreen w :
  let flag := Z.land aChangeType (CHT_FLAGS cht) in
  let parent := parentObject aItem in
  (∀ w1, self w1 = self w → heap_allocated w1 = heap_allocated w →
         heap_deleted w1 = heap_deleted w →
     Q (exec (makeEntry aItem (Z.lor (CHT_ADD cht) flag) nullptr aScreen) w1)
     ∧ Q (exec (makeEntry aItem (Z.lor (CHT_REMOVE cht) flag) nullptr
                  aScreen) w1)
     ∧ (∀ clone,
          clone = makeImage parent (heap_allocated w1) (heap_deleted w1) →
          is_set clone = true →
          Q (exec (createModified parent clone flag aScreen)
               (mkWorld (self w1) (clone :: heap_allocated w1)
                        (heap_deleted w1) (wx_reported w1))))
     ∧ Q w1) →
  Q (exec (Stage aItem aChangeType aScreen) w).
Proof.
  intros flag parent HQ.
  set (w1 := exec (wxASSERT WX_STAGE_MODIFY_DONE
             (negb (Z.land aChangeType
                      (Z.lor (CHT_MODIFY cht) (CHT_DONE cht))
                    =? Z.lor (CHT_MODIFY cht) (CHT_DONE cht)))) w).
  assert (H1 : self w1 = self w ∧ heap_allocated w1 = heap_allocated w
               ∧ heap_deleted w1 = heap_deleted w).
  { subst w1. by rewrite wxASSERT_exec. }
  destruct H1 as (Hs & Ha & Hd).
  destruct (Z.eq_dec (Z.land aChangeType (CHT_TYPE cht)) (CHT_ADD cht))
    as [Hadd|Hadd].
  { rewrite Stage_add by done. fold w1.
    refine (proj1 (HQ (exec (wxASSERT WX_STAGE_ADD_TOUCHED _) w1) _ _ _));
      rewrite wxASSERT_exec; simpl; congruence. }
  destruct (Z.eq_dec (Z.land aChangeType (CHT_TYPE cht)) (CHT_REMOVE cht))
    as [Hrem|Hrem].
  { rewrite Stage_remove by done. fold w1.
    exact (proj1 (proj2 (HQ w1 Hs Ha Hd))). }
  destruct (Z.eq_dec (Z.land aChangeType (CHT_TYPE cht)) (CHT_MODIFY cht))
    as [Hmod|Hmod].
  { rewrite Stage_modify by done. fold w1. simpl.
    destruct (is_set (makeImage (parentObject aItem) _ _)) eqn:Hc.
    - refine (proj1 (proj2 (proj2 (HQ w1 Hs Ha Hd))) _ _ Hc).
      by rewrite Ha, Hd.
    - refine (proj2 (proj2 (proj2
                (HQ (exec (wxASSERT WX_STAGE_CLONE false) w1) _ _ _))));
        rewrite wxASSERT_exec; simpl; congruence. }
  rewrite Stage_default by done. fold w1.
  refine (proj2 (proj2 (proj2
            (HQ (exec (wxASSERT WX_STAGE_FAIL false) w1) _ _ _))));
    rewrite wxASSERT_exec; simpl; congruence.
Qed.

(** *** Every record is for a touched item *)

Lemma elem_of_delete_if {A} (f : A → bool) l x :
  x ∈ delete_if f l → x ∈ l.
Proof.
  rewrite !list_elem_of_In. unfold delete_if.
  rewrite List.filter_In. tauto.
Qed.

Lemma delete_if_none {A} (f : A → bool) l :
  (∀ x, x ∈ l → f x = false) → delete_if f l = l.
Proof.
  induction l as [|x l IH]; intros H; [done|].
  unfold delete_if in *. simpl.
  rewrite (H x) by apply list_elem_of_here. simpl. f_equal.
  apply IH. intros y Hy. apply H. by apply list_elem_of_further.
Qed.

Lemma makeEntry_covers aItem aType aCopy aScreen w :
  touched_covers (self w) →
  touched_covers (self (exec (makeEntry aItem aType aCopy aScreen) w)).
Proof.
  intros Hc. rewrite makeEntry_exec. simpl.
  intros ent [Hin| ->%list_elem_of_singleton]%elem_of_app; simpl.
  - apply elem_of_union_r, Hc.
    destruct (bool_decide _); [by eapply elem_of_delete_if|done].
  - set_solver.
Qed.

Lemma createModified_covers aItem aCopy aExtraFlags aScreen w :
  touched_covers (self w) →
  touched_covers
    (self (exec (createModified aItem aCopy aExtraFlags aScreen) w)).
Proof.
  intros Hc. rewrite createModified_exec.
  destruct (bool_decide _).
  - rewrite delete_exec. by destruct (is_set aCopy).
  - by apply makeEntry_covers.
Qed.

Lemma Stage_covers aItem aChangeType aScreen w :
  touched_covers (self w) →
  touched_covers (self (exec (Stage aItem aChangeType aScreen) w)).
Proof.
  intros Hc. apply (Stage_cases (λ w', touched_covers (self w'))).
  intros w1 Hs _ _. rewrite <- Hs in Hc.
  repeat split; try done.
  - by apply makeEntry_covers.
  - by apply makeEntry_covers.
  - intros clone _ _. by apply createModified_covers.
Qed.

Lemma Stage_vector_covers container aChangeType aScreen w :
  touched_covers (self w) →
  touched_covers (self (exec (Stage_vector container aChangeType aScreen) w)).
Proof.
  revert w. induction container as [|item rest IH]; intros w Hc; [done|].
  simpl. rewrite exec_bind. by apply IH, Stage_covers.
Qed.

Lemma Stage_picker_covers p aModFlag aScreen w w' :
  Stage_picker p aModFlag aScreen w = Some w' →
  touched_covers (self w) → touched_covers (self w').
Proof.
  unfold Stage_picker, c_assert. intros Hrun Hc.
  destruct (is_set (picked_link p)).
  - destruct (NDEBUG || _); simplify_eq/=.
    by apply createModified_covers.
  - destruct (convert _); simplify_eq/=.
    by apply Stage_covers.
Qed.

Lemma Stage_picked_covers aItems aModFlag aScreen w w' :
  Stage_picked aItems aModFlag aScreen w = Some w' →
  touched_covers (self w) → touched_covers (self w').
Proof.
  revert w. induction aItems as [|p rest IH]; intros w Hrun Hc; simpl in *.
  - by simplify_eq.
  - destruct (Stage_picker p aModFlag aScreen w) as [w1|] eqn:Hp;
      simplify_eq/=.
    eapply IH; [done|]. by eapply Stage_picker_covers.
Qed.

(** C10: in every world reached from a new [COMMIT] by its public
    operations (the three [Stage] overloads and [GetStatus], whatever the
    history lists hold), the item of every record of [m_changes] is in
    [m_changedItems].  So for an item outside [m_changedItems], where
    [makeEntry] skips the scan, the scan would have removed nothing. *)
Theorem reachable_records_touched P w :
  reachable P w →
  (∀ ent, ent ∈ m_changes (self w) → m_item ent ∈ m_changedItems (self w))
  ∧ (∀ aItem aScreen,
       aItem ∉ m_changedItems (self w) →
       delete_if (same_pair aItem aScreen) (m_changes (self w))
       = m_changes (self w)).
Proof.
  intros Hr.
  assert (Hc : touched_covers (self w)).
  { induction Hr as [|w p _ IH _ _|w i t s _ IH|w c t s _ IH
                    |w l f s w' _ IH _ Hrun|w i s _ IH].
    - intros ent Hin. by apply elem_of_nil in Hin.
    - done.
    - by apply Stage_covers.
    - by apply Stage_vector_covers.
    - by eapply Stage_picked_covers.
    - done. }
  split; [done|].
  intros aItem aScreen Hnot. apply delete_if_none.
  intros ent Hin. apply same_pair_false. intros [Hi _].
  apply Hnot. rewrite <- Hi. by apply Hc.
Qed.

(** *** Staging a modification *)

Lemma Stage_modify_new aItem aChangeType aScreen w :
  let parent := parentObject (parentObject aItem) in
  let clone :=
    makeImage (parentObject aItem) (heap_allocated w) (heap_deleted w) in
  Z.land aChangeType (CHT_TYPE cht) = CHT_MODIFY cht →
  parent ∉ m_changedItems (self w) →
  is_set clone = true →
  exec (Stage aItem aChangeType aScreen) w =
  mkWorld
    (mkCommit
       (m_changes (self w)
        ++ [mkLine parent
              (Z.lor (CHT_MODIFY cht) (Z.land aChangeType (CHT_FLAGS cht)))
              clone aScreen])
       ({[parent]} ∪ m_changedItems (self w)))
    (clone :: heap_allocated w) (heap_deleted w)
    (wx_reported w ++
     (if negb (Z.land aChangeType (Z.lor (CHT_MODIFY cht) (CHT_DONE cht))
               =? Z.lor (CHT_MODIFY cht) (CHT_DONE cht))
      then [] else [WX_STAGE_MODIFY_DONE])).
Proof.
  intros parent clone Hk Hnew Hc.
  rewrite Stage_modify by done. simpl. fold clone. rewrite Hc.
  rewrite createModified_exec, wxASSERT_exec. simpl. fold parent.
  rewrite bool_decide_eq_false_2 by done.
  rewrite makeEntry_exec. simpl.
  rewrite bool_decide_eq_false_2 by done.
  rewrite Hc, kind_lor_flags by apply (cht_modify_type cht cht_ok).
  rewrite Z.eqb_refl. simpl. by rewrite app_nil_r.
Qed.

Lemma Stage_modify_again aItem aChangeType aScreen w :
  let parent := parentObject (parentObject aItem) in
  let clone :=
    makeImage (parentObject aItem) (heap_allocated w) (heap_deleted w) in
  Z.land aChangeType (CHT_TYPE cht) = CHT_MODIFY cht →
  parent ∈ m_changedItems (self w) →
  is_set clone = true →
  exec (Stage aItem aChangeType aScreen) w =
  mkWorld (self w) (clone :: heap_allocated w) (clone :: heap_deleted w)
    (wx_reported w ++
     (if negb (Z.land aChangeType (Z.lor (CHT_MODIFY cht) (CHT_DONE cht))
               =? Z.lor (CHT_MODIFY cht) (CHT_DONE cht))
      then [] else [WX_STAGE_MODIFY_DONE])).
Proof.
  intros parent clone Hk Hold Hc.
  rewrite Stage_modify by done. simpl. fold clone. rewrite Hc.
  rewrite createModified_exec, wxASSERT_exec. simpl. fold parent.
  rewrite bool_decide_eq_true_2 by done.
  rewrite delete_exec, Hc. done.
Qed.

(** C7: when [makeImage] gives [nullptr] in [Stage( item, CHT_MODIFY | f,
    screen )], the call fails: the assertion on the clone is the last thing
    it reports.  The ledger is as before (no record appended, the touched
    set not extended) and nothing was allocated or released. *)
Theorem Stage_modify_clone_failure aItem aChangeType aScreen w :
  Z.land aChangeType (CHT_TYPE cht) = CHT_MODIFY cht →
  makeImage (parentObject aItem) (heap_allocated w) (heap_deleted w)
  = nullptr →
  let w' := exec (Stage aItem aChangeType aScreen) w in
  self w' = self w
  ∧ m_changes (self w') = m_changes (self w)
  ∧ m_changedItems (self w') = m_changedItems (self w)
  ∧ heap_allocated w' = heap_allocated w
  ∧ heap_deleted w' = heap_deleted w
  ∧ ∃ earlier, wx_reported w' = wx_reported w ++ earlier ++ [WX_STAGE_CLONE].
Proof.
  intros Hk Hnull w'. subst w'.
  rewrite Stage_modify by done. simpl. rewrite Hnull. simpl.
  rewrite !wxASSERT_exec. simpl. repeat split.
  eexists. by rewrite <- app_assoc.
Qed.

Lemma app_singleton_neq {A} (l : list A) x : l ++ [x] ≠ l.
Proof.
  intros H. apply (f_equal length) in H.
  rewrite length_app in H. simpl in H. lia.
Qed.

(** C3, as the code has it: [createModified] releases the copy it was given
    and leaves the ledger as it is if and only if the resolved parent is in
    [m_changedItems], whatever kind of record put it there.  Otherwise it
    appends a record of the parent with type [CHT_MODIFY | aExtraFlags] that
    holds the copy, puts the parent in [m_changedItems] and releases
    nothing. *)
Theorem createModified_discards_iff_touched aItem aCopy aExtraFlags aScreen w :
  is_set aCopy = true →
  let parent := parentObject aItem in
  let w' := exec (createModified aItem aCopy aExtraFlags aScreen) w in
  ((self w' = self w ∧ heap_deleted w' = aCopy :: heap_deleted w)
   ↔ parent ∈ m_changedItems (self w))
  ∧ (parent ∉ m_changedItems (self w) →
     m_changes (self w') =
       m_changes (self w)
       ++ [mkLine parent (Z.lor (CHT_MODIFY cht) aExtraFlags) aCopy aScreen]
     ∧ m_changedItems (self w') = {[parent]} ∪ m_changedItems (self w)
     ∧ heap_deleted w' = heap_deleted w)
  ∧ heap_allocated w' = heap_allocated w.
Proof.
  clear makeImage NDEBUG cht_ok.
  intros Hset parent w'. subst w'.
  rewrite createModified_exec. fold parent.
  destruct (decide (parent ∈ m_changedItems (self w))) as [Hin|Hout].
  - rewrite bool_decide_eq_true_2 by done.
    rewrite delete_exec, Hset. simpl. tauto.
  - rewrite bool_decide_eq_false_2 by done.
    rewrite makeEntry_exec. simpl.
    rewrite bool_decide_eq_false_2 by done.
    split; [|done]. split; [|done].
    intros [Hself _]. apply (f_equal m_changes) in Hself. simpl in Hself.
    by apply app_singleton_neq in Hself.
Qed.

(** C4, as the code has it: [Stage( item, CHT_ADD | f, screen )] reports the
    failed assertion exactly when the item is already in [m_changedItems],
    and goes on all the same.  For an untouched item it appends a record of
    kind [CHT_ADD] with the flags of [f] and no snapshot; for a touched one
    it first removes the records of the same (item, screen) pair.  The item
    is in [m_changedItems] afterwards and the free store is not used. *)
Theorem Stage_add_reports_and_appends aItem aChangeType aScreen w :
  Z.land aChangeType (CHT_TYPE cht) = CHT_ADD cht →
  let w' := exec (Stage aItem aChangeType aScreen) w in
  let added :=
    mkLine aItem (Z.lor (CHT_ADD cht) (Z.land aChangeType (CHT_FLAGS cht)))
      nullptr aScreen in
  (∃ reports,
      wx_reported w' = wx_reported w ++ reports
      ∧ (WX_STAGE_ADD_TOUCHED ∈ reports ↔ aItem ∈ m_changedItems (self w)))
  ∧ Z.land (m_type added) (CHT_TYPE cht) = CHT_ADD cht
  ∧ m_copy added = nullptr
  ∧ (aItem ∉ m_changedItems (self w) →
     m_changes (self w') = m_changes (self w) ++ [added])
  ∧ (aItem ∈ m_changedItems (self w) →
     m_changes (self w') =
       delete_if (same_pair aItem aScreen) (m_changes (self w)) ++ [added])
  ∧ m_changedItems (self w') = {[aItem]} ∪ m_changedItems (self w)
  ∧ heap_allocated w' = heap_allocated w
  ∧ heap_deleted w' = heap_deleted w.
Proof.
  intros Hk w' added.
  assert (Hkind : Z.land (m_type added) (CHT_TYPE cht) = CHT_ADD cht).
  { apply kind_lor_flags, (cht_add_type cht cht_ok). }
  split; [|split; [done|split; [done|]]].
  - subst w'. rewrite Stage_add by done.
    rewrite makeEntry_exec, !wxASSERT_exec. simpl.
    simpl in Hkind. rewrite Hkind.
    destruct (Z.eqb_spec (CHT_ADD cht) (CHT_MODIFY cht)) as [He|_].
    { by apply (cht_add_modify cht cht_ok) in He. }
    simpl. rewrite app_nil_r, <- app_assoc.
    eexists. split; [done|].
    destruct (decide (aItem ∈ m_changedItems (self w))) as [Hin|Hout].
    + rewrite (bool_decide_eq_true_2 _ Hin). simpl.
      split; [done|]. intros _. apply elem_of_app. right.
      apply list_elem_of_here.
    + rewrite (bool_decide_eq_false_2 _ Hout). simpl.
      rewrite app_nil_r. split; [|done].
      destruct (negb _); [by intros ?%elem_of_nil|].
      intros ?%list_elem_of_singleton. done.
  - subst w'. rewrite Stage_add_self by done. simpl.
    repeat split.
    + intros Hout. by rewrite bool_decide_eq_false_2.
    + intros Hin. by rewrite bool_decide_eq_true_2.
    + rewrite Stage_add by done. by rewrite makeEntry_exec, !wxASSERT_exec.
    + rewrite Stage_add by done. by rewrite makeEntry_exec, !wxASSERT_exec.
Qed.

Lemma findEntry_from_app_skip l1 l2 aItem aScreen :
  (∀ e, e ∈ l1 → same_pair aItem aScreen e = false) →
  findEntry_from (l1 ++ l2) aItem aScreen = findEntry_from l2 aItem aScreen.
Proof.
  induction l1 as [|x l1 IH]; intros H; simpl; [done|].
  rewrite (H x) by apply list_elem_of_here.
  apply IH. intros e He. apply H. by apply list_elem_of_further.
Qed.

Lemma filter_none {A} (f : A → bool) l :
  (∀ x, x ∈ l → f x = false) → List.filter f l = [].
Proof.
  induction l as [|x l IH]; intros H; [done|]. simpl.
  rewrite (H x) by apply list_elem_of_here.
  apply IH. intros y Hy. apply H. by apply list_elem_of_further.
Qed.

(** C1, as the code has it.  Take any ledger and two calls
    [Stage( item, CHT_MODIFY | f, screen )] for which [makeImage] gives the
    clones [c1] and [c2].  The second call passes [c2] to [delete] and
    leaves the ledger as the first call left it.  When the resolved parent
    of the item was not touched, the first call appends a record of kind
    [CHT_MODIFY] that holds [c1], and in a ledger whose records are all for
    touched items it is, after both calls, the only record of the parent.
    When the parent was touched, by a record of any kind, the first call
    too passes its clone to [delete] and leaves the ledger as it was. *)
Theorem Stage_modify_twice_first_snapshot aItem aChangeType aScreen w :
  Z.land aChangeType (CHT_TYPE cht) = CHT_MODIFY cht →
  let parent := parentObject (parentObject aItem) in
  let c1 :=
    makeImage (parentObject aItem) (heap_allocated w) (heap_deleted w) in
  let w1 := exec (Stage aItem aChangeType aScreen) w in
  let c2 :=
    makeImage (parentObject aItem) (heap_allocated w1) (heap_deleted w1) in
  let w2 := exec (Stage aItem aChangeType aScreen) w1 in
  let record :=
    mkLine parent
      (Z.lor (CHT_MODIFY cht) (Z.land aChangeType (CHT_FLAGS cht)))
      c1 aScreen in
  is_set c1 = true →
  is_set c2 = true →
  (self w2 = self w1 ∧ heap_deleted w2 = c2 :: heap_deleted w1)
  ∧ Z.land (m_type record) (CHT_TYPE cht) = CHT_MODIFY cht
  ∧ (parent ∉ m_changedItems (self w) →
     m_changes (self w1) = m_changes (self w) ++ [record]
     ∧ heap_deleted w1 = heap_deleted w
     ∧ (touched_covers (self w) →
        List.filter (λ e, (m_item e =? parent)%N) (m_changes (self w2))
        = [record]))
  ∧ (parent ∈ m_changedItems (self w) →
     self w1 = self w ∧ heap_deleted w1 = c1 :: heap_deleted w).
Proof.
  intros Hk parent c1 w1 c2 w2 record Hc1 Hc2.
  assert (Htouched1 : parent ∈ m_changedItems (self w1)).
  { subst w1.
    destruct (decide (parent ∈ m_changedItems (self w))) as [Hin|Hout].
    - by rewrite Stage_modify_again.
    - rewrite Stage_modify_new by done. simpl. set_solver. }
  assert (H2 : self w2 = self w1 ∧ heap_deleted w2 = c2 :: heap_deleted w1).
  { subst w2. by rewrite Stage_modify_again. }
  split; [done|]. split; [|split].
  - apply kind_lor_flags, (cht_modify_type cht cht_ok).
  - intros Hnew.
    assert (H1 : m_changes (self w1) = m_changes (self w) ++ [record]
                 ∧ heap_deleted w1 = heap_deleted w).
    { subst w1. by rewrite Stage_modify_new. }
    destruct H1 as [Hch Hd]. split; [done|]. split; [done|].
    intros Hcov. rewrite (proj1 H2), Hch.
    rewrite List.filter_app. simpl. rewrite N.eqb_refl.
    rewrite filter_none; [done|].
    intros e He. apply N.eqb_neq. intros Heq.
    apply Hnew. rewrite <- Heq. by apply Hcov.
  - intros Hold. subst w1. by rewrite Stage_modify_again.
Qed.

(** C6, as the code has it.  In a ledger whose records are all for touched
    items, after [Stage( item, CHT_MODIFY | f, screen )] for an item whose
    parent is its own parent and is not touched yet, and for which
    [makeImage] gives a clone, [GetStatus( item, screen )] returns
    [CHT_MODIFY] with the flags of [f], of kind [CHT_MODIFY].  When the
    resolved parent was touched already, [GetStatus] returns after the call
    what it returned before it.  In any world without a record of the pair
    (parent of item, screen), [GetStatus] returns 0, "no change". *)
Theorem GetStatus_after_Stage_modify aItem aChangeType aScreen w :
  (Z.land aChangeType (CHT_TYPE cht) = CHT_MODIFY cht →
   touched_covers (self w) →
   parentObject (parentObject aItem) = parentObject aItem →
   parentObject aItem ∉ m_changedItems (self w) →
   is_set (makeImage (parentObject aItem) (heap_allocated w)
             (heap_deleted w)) = true →
   let status :=
     (GetStatus aItem aScreen (exec (Stage aItem aChangeType aScreen) w)).1 in
   status = Z.lor (CHT_MODIFY cht) (Z.land aChangeType (CHT_FLAGS cht))
   ∧ Z.land status (CHT_TYPE cht) = CHT_MODIFY cht)
  ∧ (Z.land aChangeType (CHT_TYPE cht) = CHT_MODIFY cht →
     parentObject (parentObject aItem) ∈ m_changedItems (self w) →
     is_set (makeImage (parentObject aItem) (heap_allocated w)
               (heap_deleted w)) = true →
     (GetStatus aItem aScreen (exec (Stage aItem aChangeType aScreen) w)).1
     = (GetStatus aItem aScreen w).1)
  ∧ ((∀ e, e ∈ m_changes (self w) →
           ¬ (m_item e = parentObject aItem ∧ m_screen e = aScreen)) →
     (GetStatus aItem aScreen w).1 = 0).
Proof.
  split; [|split; [by intros Hk Hold Hc; rewrite Stage_modify_again|]].
  - intros Hk Hcov Hidem Hnew Hc status.
    assert (Hst : status =
      Z.lor (CHT_MODIFY cht) (Z.land aChangeType (CHT_FLAGS cht))).
    { subst status. rewrite Stage_modify_new; try done; [|by rewrite Hidem].
      unfold GetStatus, findEntry, bind, ret, get_self. simpl.
      rewrite findEntry_from_app_skip.
      - simpl. unfold same_pair. simpl. by rewrite Hidem, !N.eqb_refl.
      - intros e He. apply same_pair_false. intros [Hi _].
        apply Hnew. rewrite <- Hi. by apply Hcov. }
    split; [done|].
    rewrite Hst. apply kind_lor_flags, (cht_modify_type cht cht_ok).
  - intros Hnone.
    unfold GetStatus, findEntry, bind, ret, get_self. simpl.
    pose proof (findEntry_from_first (m_changes (self w))
                  (parentObject aItem) aScreen) as H.
    destruct (findEntry_from _ _ _) as [ent|]; [|done].
    destruct H as (before & after & Heq & _ & He).
    apply same_pair_true in He. exfalso. apply (Hnone ent); [|done].
    rewrite Heq. apply elem_of_app. right. apply list_elem_of_here.
Qed.

(** *** The history list *)

(** C5, as the code has it.  The entries of the list are staged one after
    the other, in list order, and an abort ends the loop.  For one entry,
    with [UNSPECIFIED] replaced by the default: an entry with a link is
    handed to [createModified] with that link and no extra flag, without a
    call of [makeImage], so that for an untouched parent the record appended
    holds the link itself; in a build without [NDEBUG] this happens only
    when the status is [CHANGED], any other status aborts.  An entry
    without a link goes through [Stage] with [CHT_ADD] for [NEWITEM],
    [CHT_REMOVE] for [DELETED] and [CHT_MODIFY] for [CHANGED]; any other
    status aborts in a build without [NDEBUG] and is staged as [CHT_MODIFY]
    in a build with it. *)
Theorem Stage_picked_mapping p rest aModFlag aScreen w :
  let status :=
    match picked_status p with UNSPECIFIED => aModFlag | t => t end in
  let item := picked_item p in
  let link := picked_link p in
  Stage_picked [] aModFlag aScreen w = Some w
  ∧ Stage_picked (p :: rest) aModFlag aScreen w
    = Stage_picker p aModFlag aScreen w
        ≫= Stage_picked rest aModFlag aScreen
  ∧ (is_set link = true →
     let w' := exec (createModified item link 0 aScreen) w in
     Stage_picker p aModFlag aScreen w
     = (if NDEBUG || is_CHANGED status then Some w' else None)
     ∧ heap_allocated w' = heap_allocated w
     ∧ (parentObject item ∉ m_changedItems (self w) →
        m_changes (self w')
        = m_changes (self w)
          ++ [mkLine (parentObject item) (CHT_MODIFY cht) link aScreen]))
  ∧ (is_set link = false →
     Stage_picker p aModFlag aScreen w
     = match status with
       | NEWITEM => Some (exec (Stage item (CHT_ADD cht) aScreen) w)
       | DELETED => Some (exec (Stage item (CHT_REMOVE cht) aScreen) w)
       | CHANGED => Some (exec (Stage item (CHT_MODIFY cht) aScreen) w)
       | _ => if NDEBUG
              then Some (exec (Stage item (CHT_MODIFY cht) aScreen) w)
              else None
       end).
Proof.
  intros status item link.
  split; [done|]. split; [done|]. split.
  - intros Hl w'. split; [|split].
    + unfold Stage_picker, c_assert. fold link status item. rewrite Hl.
      unfold Modified. by destruct (NDEBUG || is_CHANGED status).
    + subst w'. rewrite createModified_exec.
      destruct (bool_decide _).
      * rewrite delete_exec. by destruct (is_set link).
      * by rewrite makeEntry_exec.
    + intros Hnew. subst w'. rewrite createModified_exec.
      rewrite bool_decide_eq_false_2 by done.
      rewrite makeEntry_exec. simpl.
      rewrite bool_decide_eq_false_2 by done.
      by rewrite Z.lor_0_r.
  - intros Hl. unfold Stage_picker. fold link status item. rewrite Hl.
    unfold convert. destruct status; try done; by destruct NDEBUG.
Qed.

(** *** Ownership of the snapshots *)

Lemma owns_lists_shrink own' own ext allocated deleted :
  sublist own' own →
  owns_lists own ext allocated deleted →
  owns_lists own' ext allocated deleted.
Proof.
  intros Hsub (Hnd & Hlive & Hdel).
  assert (Hsub' : sublist (own' ++ ext) (own ++ ext)).
  { by apply sublist_app. }
  split; [|split; [|done]].
  - by eapply sublist_NoDup.
  - intros p Hp. apply Hlive. by eapply elem_of_sublist.
Qed.

Lemma owns_lists_adopt own p ext allocated deleted :
  owns_lists own (p :: ext) allocated deleted →
  owns_lists (own ++ [p]) ext allocated deleted.
Proof.
  unfold owns_lists. rewrite <- app_assoc. done.
Qed.

Lemma owns_lists_discard own p ext allocated deleted :
  owns_lists own (p :: ext) allocated deleted →
  owns_lists own ext allocated (p :: deleted).
Proof.
  intros (Hnd & Hlive & Hdel).
  apply NoDup_app in Hnd as (Hn1 & Hdisj & Hn2).
  apply NoDup_cons in Hn2 as [Hp Hn2].
  split; [|split].
  - apply NoDup_app. split; [done|]. split; [|done].
    intros x Hx Hx'. apply (Hdisj x Hx). by apply list_elem_of_further.
  - intros x Hx.
    assert (Hx' : x ∈ own ++ p :: ext).
    { apply elem_of_app in Hx as [Hx|Hx]; apply elem_of_app;
        [by left|right; by apply list_elem_of_further]. }
    split; [by apply Hlive|].
    intros [->|Hd]%elem_of_cons; [|by apply (Hlive x Hx')].
    apply elem_of_app in Hx as [Hx|Hx]; [|done].
    apply (Hdisj p Hx), list_elem_of_here.
  - intros x [->|Hd]%elem_of_cons; [|by apply Hdel].
    apply Hlive, elem_of_app. right. apply list_elem_of_here.
Qed.

Lemma owns_lists_alloc own p ext allocated deleted :
  p ∉ allocated →
  owns_lists own ext allocated deleted →
  owns_lists own (p :: ext) (p :: allocated) deleted.
Proof.
  intros Hfresh (Hnd & Hlive & Hdel).
  apply NoDup_app in Hnd as (Hn1 & Hdisj & Hn2).
  split; [|split].
  - apply NoDup_app. split; [done|]. split.
    + intros x Hx [->|Hx']%elem_of_cons; [|by apply (Hdisj x)].
      apply Hfresh, (Hlive p), elem_of_app. by left.
    + apply NoDup_cons. split; [|done].
      intros Hp. apply Hfresh, (Hlive p), elem_of_app. by right.
  - intros x Hx.
    assert (Hcases : x = p ∨ x ∈ own ++ ext).
    { apply elem_of_app in Hx as [Hx|[->|Hx]%elem_of_cons];
        [right|by left|right]; apply elem_of_app; auto. }
    destruct Hcases as [->|Hx'].
    + split; [apply list_elem_of_here|].
      intros Hd. by apply Hfresh, Hdel.
    + split; [apply list_elem_of_further|]; by apply (Hlive x).
  - intros x Hx. by apply list_elem_of_further, Hdel.
Qed.

Lemma owns_lists_more own p ext allocated deleted :
  owns_lists own ext allocated deleted →
  owns_lists own ext (p :: allocated) deleted.
Proof.
  intros (Hnd & Hlive & Hdel). split; [done|]. split.
  - intros x Hx. split; [apply list_elem_of_further|]; by apply (Hlive x).
  - intros x Hx. by apply list_elem_of_further, Hdel.
Qed.

Lemma owned_app c1 c2 items items' :
  owned (mkCommit (c1 ++ c2) items)
  = owned (mkCommit c1 items') ++ owned (mkCommit c2 items').
Proof.
  unfold owned. simpl. by rewrite List.map_app, List.filter_app.
Qed.

Lemma owned_delete_if f changes items items' :
  sublist (owned (mkCommit (delete_if f changes) items))
          (owned (mkCommit changes items')).
Proof.
  unfold owned, delete_if. simpl.
  induction changes as [|ent changes IH]; simpl; [constructor|].
  destruct (f ent); simpl.
  - destruct (is_set (m_copy ent)); [by apply sublist_cons|done].
  - destruct (is_set (m_copy ent)); [by apply sublist_skip|done].
Qed.

Lemma makeEntry_owns_ok ext aItem aType aScreen w :
  owns_ok ext w →
  owns_ok ext (exec (makeEntry aItem aType nullptr aScreen) w).
Proof.
  unfold owns_ok. intros Hok. rewrite makeEntry_exec. simpl.
  eapply owns_lists_shrink; [|done].
  rewrite (owned_app _ _ _ (m_changedItems (self w))).
  unfold owned at 2. simpl. rewrite app_nil_r.
  destruct (bool_decide _).
  - replace (self w) with
      (mkCommit (m_changes (self w)) (m_changedItems (self w)))
      by by destruct (self w).
    apply owned_delete_if.
  - by destruct (self w).
Qed.

Lemma createModified_owns_ok ext aItem aCopy aExtraFlags aScreen w :
  is_set aCopy = true →
  owns_ok (aCopy :: ext) w →
  owns_ok ext (exec (createModified aItem aCopy aExtraFlags aScreen) w).
Proof.
  unfold owns_ok. intros Hset Hok. rewrite createModified_exec.
  destruct (bool_decide _) eqn:Htouched.
  - rewrite delete_exec, Hset. simpl. by apply owns_lists_discard.
  - rewrite makeEntry_exec. simpl. rewrite Htouched.
    rewrite (owned_app _ _ _ (m_changedItems (self w))).
    unfold owned at 2. simpl. rewrite Hset.
    replace (mkCommit (m_changes (self w)) (m_changedItems (self w)))
      with (self w) by by destruct (self w).
    by apply owns_lists_adopt.
Qed.

Lemma Stage_owns_ok ext aItem aChangeType aScreen w :
  makeImage_allocates →
  owns_ok ext w →
  owns_ok ext (exec (Stage aItem aChangeType aScreen) w).
Proof.
  intros Hfresh Hok. apply (Stage_cases (owns_ok ext)).
  intros w1 Hs Ha Hd.
  assert (Hok1 : owns_ok ext w1).
  { unfold owns_ok. by rewrite Hs, Ha, Hd. }
  split; [|split; [|split]]; [| | |done].
  - by apply makeEntry_owns_ok.
  - by apply makeEntry_owns_ok.
  - intros clone -> Hset. apply createModified_owns_ok; [done|].
    unfold owns_ok in *. simpl.
    apply owns_lists_alloc; [|done]. by apply Hfresh.
Qed.

Lemma Stage_vector_owns_ok ext container aChangeType aScreen w :
  makeImage_allocates →
  owns_ok ext w →
  owns_ok ext (exec (Stage_vector container aChangeType aScreen) w).
Proof.
  intros Hfresh. revert w.
  induction container as [|item rest IH]; intros w Hok; [done|].
  simpl. rewrite exec_bind. by apply IH, Stage_owns_ok.
Qed.

Lemma Stage_picked_owns_ok ext aItems aModFlag aScreen w w' :
  makeImage_allocates →
  Stage_picked aItems aModFlag aScreen w = Some w' →
  owns_ok (links aItems ++ ext) w →
  owns_ok ext w'.
Proof.
  intros Hfresh. revert w.
  induction aItems as [|p rest IH]; intros w Hrun Hok; simpl in *.
  - by simplify_eq.
  - destruct (Stage_picker p aModFlag aScreen w) as [w1|] eqn:Hp;
      simplify_eq/=.
    eapply IH; [done|].
    unfold Stage_picker, c_assert, Modified, links in *. simpl in Hok.
    destruct (is_set (picked_link p)) eqn:Hl.
    + destruct (NDEBUG || _); simplify_eq/=.
      by apply createModified_owns_ok.
    + destruct (convert _); simplify_eq/=.
      by apply Stage_owns_ok.
Qed.

Lemma reachable_owns_ok w :
  makeImage_allocates →
  reachable hands_over w →
  owns_ok [] w.
Proof.
  intros Hfresh Hr.
  induction Hr as [|w p _ IH _ _|w i t s _ IH|w c t s _ IH
                  |w l f s w' _ IH Hl Hrun|w i s _ IH].
  - unfold owns_ok, owns_lists, owned. simpl.
    split; [constructor|]. split; by intros p ?%elem_of_nil.
  - unfold owns_ok in *. simpl. by apply owns_lists_more.
  - by apply Stage_owns_ok.
  - by apply Stage_vector_owns_ok.
  - eapply Stage_picked_owns_ok; [done|done|].
    unfold hands_over in Hl. by rewrite app_nil_r.
  - done.
Qed.

Lemma delete_copies_deleted changes w :
  heap_deleted (exec (delete_copies changes) w)
  = rev (List.filter is_set (map m_copy changes)) ++ heap_deleted w.
Proof.
  revert w. induction changes as [|ent changes IH]; intros w; [done|].
  simpl. rewrite exec_bind, IH.
  destruct (is_set (m_copy ent)) eqn:Hset; simpl.
  - rewrite delete_exec, Hset. simpl. by rewrite <- app_assoc.
  - done.
Qed.

Lemma elem_of_owned c p :
  p ∈ owned c ↔ ∃ ent, ent ∈ m_changes c ∧ m_copy ent = p ∧ p ≠ nullptr.
Proof.
  unfold owned. rewrite list_elem_of_In, List.filter_In, List.in_map_iff.
  unfold is_set. rewrite negb_true_iff, N.eqb_neq.
  split.
  - intros [(ent & Hc & Hin) Hp]. exists ent.
    by rewrite list_elem_of_In.
  - intros (ent & Hin & Hc & Hp). split; [|done].
    exists ent. by rewrite <- list_elem_of_In.
Qed.

Lemma count_occ_NoDup (l : list N) p :
  NoDup l → p ∈ l → count_occ N.eq_dec l p = 1%nat.
Proof.
  intros Hnd Hin. apply NoDup_ListNoDup in Hnd.
  apply list_elem_of_In in Hin.
  by apply (proj1 (List.NoDup_count_occ' N.eq_dec l) Hnd).
Qed.

Lemma count_occ_absent (l : list N) p :
  p ∉ l → count_occ N.eq_dec l p = 0%nat.
Proof.
  intros Hout. apply List.count_occ_not_In.
  by rewrite <- list_elem_of_In.
Qed.

(** C8: take a world reached from a new [COMMIT] by its public operations,
    with a [makeImage] that allocates and history lists that hand over
    clones their makers own, and run [~COMMIT] there, at whatever point of
    the transaction.  No two records hold the same snapshot; the snapshot
    of every record that has one had not been passed to [delete] before and
    is passed to it exactly once by the destructor; and for the objects
    that no record holds the destructor calls [delete] not at all. *)
Theorem dtor_releases_owned_once w :
  makeImage_allocates →
  reachable hands_over w →
  let w' := exec COMMIT_dtor w in
  NoDup (owned (self w))
  ∧ (∀ ent, ent ∈ m_changes (self w) → m_copy ent ≠ nullptr →
       count_occ N.eq_dec (heap_deleted w) (m_copy ent) = 0%nat
       ∧ count_occ N.eq_dec (heap_deleted w') (m_copy ent) = 1%nat)
  ∧ (∀ p, (∀ ent, ent ∈ m_changes (self w) → m_copy ent ≠ p) →
       count_occ N.eq_dec (heap_deleted w') p
       = count_occ N.eq_dec (heap_deleted w) p).
Proof.
  intros Hfresh Hr w'.
  destruct (reachable_owns_ok w Hfresh Hr) as (Hnd & Hlive & _).
  rewrite app_nil_r in Hnd.
  assert (Hdel : heap_deleted w' = rev (owned (self w)) ++ heap_deleted w).
  { subst w'. unfold COMMIT_dtor. rewrite exec_bind. simpl.
    apply delete_copies_deleted. }
  split; [done|]. split.
  - intros ent Hin Hset.
    assert (Hown : m_copy ent ∈ owned (self w)).
    { apply elem_of_owned. by exists ent. }
    assert (Hnot : m_copy ent ∉ heap_deleted w).
    { apply Hlive. by rewrite app_nil_r. }
    rewrite Hdel, List.count_occ_app, List.count_occ_rev.
    rewrite (count_occ_absent _ _ Hnot), (count_occ_NoDup _ _ Hnd Hown).
    done.
  - intros p Hno.
    assert (Hout : p ∉ owned (self w)).
    { intros (ent & Hin & Hc & _)%elem_of_owned. by apply (Hno ent). }
    rewrite Hdel, List.count_occ_app, List.count_occ_rev.
    by rewrite (count_occ_absent _ _ Hout).
Qed.

(** ** Further properties of the staging operations *)

(** *** Removals *)

(** [Stage( item, CHT_REMOVE | f, screen )] in any ledger: it appends a
    record of kind [CHT_REMOVE] with the flags of [f] and no snapshot, after
    erasing the records of the same pair when the item was touched; the item
    is touched afterwards.  A removal of an item that is already touched, a
    second removal included, is not an error: the only assertion the call
    can report is the one on [CHT_MODIFY] with [CHT_DONE].  The free store
    is not used: a snapshot held by an erased record is not deleted. *)
Theorem Stage_remove_appends aItem aChangeType aScreen w :
  Z.land aChangeType (CHT_TYPE cht) = CHT_REMOVE cht →
  let w' := exec (Stage aItem aChangeType aScreen) w in
  let removal :=
    mkLine aItem
      (Z.lor (CHT_REMOVE cht) (Z.land aChangeType (CHT_FLAGS cht)))
      nullptr aScreen in
  m_changes (self w') =
    (if bool_decide (aItem ∈ m_changedItems (self w))
     then delete_if (same_pair aItem aScreen) (m_changes (self w))
     else m_changes (self w)) ++ [removal]
  ∧ Z.land (m_type removal) (CHT_TYPE cht) = CHT_REMOVE cht
  ∧ m_changedItems (self w') = {[aItem]} ∪ m_changedItems (self w)
  ∧ heap_allocated w' = heap_allocated w
  ∧ heap_deleted w' = heap_deleted w
  ∧ wx_reported w' =
      wx_reported w ++
      (if Z.land aChangeType (Z.lor (CHT_MODIFY cht) (CHT_DONE cht))
          =? Z.lor (CHT_MODIFY cht) (CHT_DONE cht)
       then [WX_STAGE_MODIFY_DONE] else []).
Proof.
  intros Hk w' removal.
  assert (Hkind : Z.land (m_type removal) (CHT_TYPE cht) = CHT_REMOVE cht).
  { apply kind_lor_flags, (cht_remove_type cht cht_ok). }
  subst w'. rewrite Stage_remove by done.
  rewrite makeEntry_exec, !wxASSERT_exec. simpl.
  simpl in Hkind. rewrite Hkind.
  destruct (Z.eqb_spec (CHT_REMOVE cht) (CHT_MODIFY cht)) as [He|_].
  { by apply (cht_remove_modify cht cht_ok) in He. }
  simpl. rewrite app_nil_r.
  repeat split. by destruct (Z.eqb _ _).
Qed.

Lemma delete_if_elem_false {A} (f : A → bool) l x :
  x ∈ delete_if f l → f x = false.
Proof.
  rewrite list_elem_of_In. unfold delete_if.
  rewrite List.filter_In, negb_true_iff. tauto.
Qed.

Lemma delete_if_untouched aItem aScreen c :
  touched_covers c →
  aItem ∉ m_changedItems c →
  delete_if (same_pair aItem aScreen) (m_changes c) = m_changes c.
Proof.
  intros Hcov Hnew. apply delete_if_none.
  intros ent Hin. apply same_pair_false. intros [Hi _].
  apply Hnew. rewrite <- Hi. by apply Hcov.
Qed.

(** Staging the same removal twice is staging it once: in a ledger whose
    records are all for touched items, the second
    [Stage( item, CHT_REMOVE | f, screen )] replaces the record the first
    one appended by an equal one. *)
Theorem Stage_remove_idempotent aItem aChangeType aScreen w :
  Z.land aChangeType (CHT_TYPE cht) = CHT_REMOVE cht →
  touched_covers (self w) →
  self (exec (Stage aItem aChangeType aScreen ;;
              Stage aItem aChangeType aScreen) w)
  = self (exec (Stage aItem aChangeType aScreen) w).
Proof.
  intros Hk Hcov. rewrite exec_bind.
  rewrite (Stage_remove_self _ _ _ (exec _ w)) by done.
  rewrite Stage_remove_self by done. simpl.
  rewrite bool_decide_eq_true_2 by set_solver.
  f_equal; [|by rewrite (assoc_L (∪)), (idemp_L (∪))].
  rewrite delete_if_app. f_equal.
  replace (delete_if (same_pair aItem aScreen) [_]) with (@nil COMMIT_LINE)
    by (unfold delete_if, same_pair; simpl; by rewrite !N.eqb_refl).
  rewrite app_nil_r.
  destruct (decide (aItem ∈ m_changedItems (self w))) as [Hin|Hout].
  - rewrite bool_decide_eq_true_2 by done. apply delete_if_idem.
  - rewrite bool_decide_eq_false_2 by done.
    by apply delete_if_untouched.
Qed.

(** *** Change types the [switch] does not know *)

(** A change type whose kind bits are none of [CHT_ADD], [CHT_REMOVE] and
    [CHT_MODIFY] (no kind at all, or two kinds or-ed together) reaches
    [wxFAIL]: the failure is the last thing reported, and the ledger and
    the free store are as before. *)
Theorem Stage_unknown_kind aItem aChangeType aScreen w :
  Z.land aChangeType (CHT_TYPE cht) ≠ CHT_ADD cht →
  Z.land aChangeType (CHT_TYPE cht) ≠ CHT_REMOVE cht →
  Z.land aChangeType (CHT_TYPE cht) ≠ CHT_MODIFY cht →
  let w' := exec (Stage aItem aChangeType aScreen) w in
  self w' = self w
  ∧ heap_allocated w' = heap_allocated w
  ∧ heap_deleted w' = heap_deleted w
  ∧ ∃ earlier, wx_reported w' = wx_reported w ++ earlier ++ [WX_STAGE_FAIL].
Proof.
  intros Ha Hr Hm w'. subst w'.
  rewrite Stage_default by done. rewrite !wxASSERT_exec. simpl.
  repeat split. eexists. by rewrite <- app_assoc.
Qed.

(** *** The assertion on [CHT_MODIFY] with [CHT_DONE] *)

(** A site is not among reports that name other sites. *)
Ltac other_sites :=
  repeat match goal with
         | |- context [if ?c then _ else _] => destruct c
         end;
  simpl; intros Hin;
  repeat (apply elem_of_cons in Hin as [?|Hin]; [done|]);
  by apply elem_of_nil in Hin.

Lemma land_lor_both t a b :
  Z.land t (Z.lor a b) = Z.lor a b ↔ Z.land t a = a ∧ Z.land t b = b.
Proof.
  split.
  - intros H. split; apply Z.bits_inj'; intros n Hn;
      apply (f_equal (λ z, Z.testbit z n)) in H;
      rewrite Z.land_spec, !Z.lor_spec in H; rewrite Z.land_spec;
      destruct (Z.testbit t n), (Z.testbit a n), (Z.testbit b n);
      simpl in *; congruence.
  - intros [Ha Hb]. rewrite Z.land_lor_distr_r. by rewrite Ha, Hb.
Qed.

(** Whatever the kind, [Stage] reports the assertion on incompatible flags
    exactly when the change type has all the bits of [CHT_MODIFY] and all
    the bits of [CHT_DONE]; it is then the first report of the call and is
    reported once. *)
Theorem Stage_modify_done_reported aItem aChangeType aScreen w :
  let w' := exec (Stage aItem aChangeType aScreen) w in
  ∃ first rest,
    wx_reported w' = wx_reported w ++ first ++ rest
    ∧ (WX_STAGE_MODIFY_DONE ∉ rest)
    ∧ ((Z.land aChangeType (CHT_MODIFY cht) = CHT_MODIFY cht
        ∧ Z.land aChangeType (CHT_DONE cht) = CHT_DONE cht)
       → first = [WX_STAGE_MODIFY_DONE])
    ∧ (¬ (Z.land aChangeType (CHT_MODIFY cht) = CHT_MODIFY cht
          ∧ Z.land aChangeType (CHT_DONE cht) = CHT_DONE cht)
       → first = []).
Proof.
  intros w'.
  set (first := if negb (Z.land aChangeType
                           (Z.lor (CHT_MODIFY cht) (CHT_DONE cht))
                         =? Z.lor (CHT_MODIFY cht) (CHT_DONE cht))
                then [] else [WX_STAGE_MODIFY_DONE]).
  assert (Hfirst :
    ((Z.land aChangeType (CHT_MODIFY cht) = CHT_MODIFY cht
      ∧ Z.land aChangeType (CHT_DONE cht) = CHT_DONE cht)
     → first = [WX_STAGE_MODIFY_DONE])
    ∧ (¬ (Z.land aChangeType (CHT_MODIFY cht) = CHT_MODIFY cht
          ∧ Z.land aChangeType (CHT_DONE cht) = CHT_DONE cht)
       → first = [])).
  { subst first.
    destruct (Z.eqb_spec
                (Z.land aChangeType (Z.lor (CHT_MODIFY cht) (CHT_DONE cht)))
                (Z.lor (CHT_MODIFY cht) (CHT_DONE cht))) as [He|Hne]; simpl.
    - apply land_lor_both in He. tauto.
    - rewrite land_lor_both in Hne. tauto. }
  assert (Hrun : ∃ rest, wx_reported w' = wx_reported w ++ first ++ rest
                         ∧ WX_STAGE_MODIFY_DONE ∉ rest).
  { subst w'.
    destruct (Z.eq_dec (Z.land aChangeType (CHT_TYPE cht)) (CHT_ADD cht))
      as [Hadd|Hadd].
    { rewrite Stage_add by done.
      rewrite makeEntry_exec, !wxASSERT_exec. simpl. fold first.
      rewrite <- !app_assoc. eexists. split; [done|]. other_sites. }
    destruct (Z.eq_dec (Z.land aChangeType (CHT_TYPE cht)) (CHT_REMOVE cht))
      as [Hrem|Hrem].
    { rewrite Stage_remove by done.
      rewrite makeEntry_exec, !wxASSERT_exec. simpl. fold first.
      rewrite <- !app_assoc. eexists. split; [done|]. other_sites. }
    destruct (Z.eq_dec (Z.land aChangeType (CHT_TYPE cht)) (CHT_MODIFY cht))
      as [Hmod|Hmod].
    { rewrite Stage_modify by done. simpl.
      destruct (is_set (makeImage _ _ _)) eqn:Hc.
      - rewrite createModified_exec. simpl.
        destruct (bool_decide _).
        + rewrite delete_exec, !wxASSERT_exec, Hc. simpl. fold first.
          exists []. split; [by rewrite app_nil_r|by intros ?%elem_of_nil].
        + rewrite makeEntry_exec, !wxASSERT_exec. simpl. fold first.
          rewrite <- !app_assoc. eexists. split; [done|]. other_sites.
      - rewrite !wxASSERT_exec. simpl. fold first.
        rewrite <- !app_assoc. eexists. split; [done|]. other_sites. }
    rewrite Stage_default by done.
    rewrite !wxASSERT_exec. simpl. fold first.
    rewrite <- !app_assoc. eexists. split; [done|]. other_sites. }
  destruct Hrun as (rest & Hwx & Hrest).
  exists first, rest. tauto.
Qed.

(** *** What staging never undoes *)

Lemma makeEntry_touched aItem aType aCopy aScreen w :
  m_changedItems (self (exec (makeEntry aItem aType aCopy aScreen) w))
  = {[aItem]} ∪ m_changedItems (self w).
Proof. by rewrite makeEntry_exec. Qed.

Lemma createModified_touched_mono aItem aCopy aExtraFlags aScreen w :
  m_changedItems (self w)
  ⊆ m_changedItems
      (self (exec (createModified aItem aCopy aExtraFlags aScreen) w)).
Proof.
  rewrite createModified_exec. destruct (bool_decide _).
  - rewrite delete_exec. by destruct (is_set aCopy).
  - rewrite makeEntry_touched. apply union_subseteq_r.
Qed.

Lemma Stage_touched_mono aItem aChangeType aScreen w :
  m_changedItems (self w)
  ⊆ m_changedItems (self (exec (Stage aItem aChangeType aScreen) w)).
Proof.
  apply (Stage_cases
           (λ w', m_changedItems (self w) ⊆ m_changedItems (self w'))).
  intros w1 Hs _ _. rewrite <- Hs.
  split; [|split; [|split]]; [| | |done].
  - rewrite makeEntry_touched. apply union_subseteq_r.
  - rewrite makeEntry_touched. apply union_subseteq_r.
  - intros clone _ _.
    apply (createModified_touched_mono _ _ _ _
             (mkWorld (self w1) (clone :: heap_allocated w1)
                      (heap_deleted w1) (wx_reported w1))).
Qed.

Lemma Stage_vector_touched_mono container aChangeType aScreen w :
  m_changedItems (self w)
  ⊆ m_changedItems
      (self (exec (Stage_vector container aChangeType aScreen) w)).
Proof.
  revert w. induction container as [|item rest IH]; intros w; [done|].
  simpl. rewrite exec_bind. etrans; [|apply IH].
  apply Stage_touched_mono.
Qed.

Lemma Stage_picker_touched_mono p aModFlag aScreen w w' :
  Stage_picker p aModFlag aScreen w = Some w' →
  m_changedItems (self w) ⊆ m_changedItems (self w').
Proof.
  unfold Stage_picker, c_assert, Modified. intros Hrun.
  destruct (is_set (picked_link p)).
  - destruct (NDEBUG || _); simplify_eq/=.
    apply createModified_touched_mono.
  - destruct (convert _); simplify_eq/=.
    apply Stage_touched_mono.
Qed.

Lemma Stage_picked_touched_mono aItems aModFlag aScreen w w' :
  Stage_picked aItems aModFlag aScreen w = Some w' →
  m_changedItems (self w) ⊆ m_changedItems (self w').
Proof.
  revert w. induction aItems as [|p rest IH]; intros w Hrun; simpl in *.
  - by simplify_eq.
  - destruct (Stage_picker p aModFlag aScreen w) as [w1|] eqn:Hp;
      simplify_eq/=.
    etrans; [by eapply Stage_picker_touched_mono|by apply IH].
Qed.

(** No staging call takes an item out of [m_changedItems]: with each of
    the three [Stage] overloads, whatever it is given, the items touched
    before the call are touched after it. *)
Theorem touched_set_only_grows aScreen w :
  (∀ aItem aChangeType,
     m_changedItems (self w)
     ⊆ m_changedItems (self (exec (Stage aItem aChangeType aScreen) w)))
  ∧ (∀ container aChangeType,
       m_changedItems (self w)
       ⊆ m_changedItems
           (self (exec (Stage_vector container aChangeType aScreen) w)))
  ∧ (∀ aItems aModFlag w',
       Stage_picked aItems aModFlag aScreen w = Some w' →
       m_changedItems (self w) ⊆ m_changedItems (self w')).
Proof.
  split; [|split].
  - intros. apply Stage_touched_mono.
  - intros. apply Stage_vector_touched_mono.
  - intros. by eapply Stage_picked_touched_mono.
Qed.

(** *** The free store *)

(** One call of [Stage] uses the free store in one of three ways.  It
    leaves it alone; or, for a [CHT_MODIFY], it has [makeImage] allocate one
    clone and keeps it; or it allocates that clone and deletes it at once.
    So [Stage] deletes nothing but the clone it has just made: no snapshot
    that a record holds, and nothing of the caller's. *)
Theorem Stage_free_store aItem aChangeType aScreen w :
  let w' := exec (Stage aItem aChangeType aScreen) w in
  let clone :=
    makeImage (parentObject aItem) (heap_allocated w) (heap_deleted w) in
  (heap_allocated w' = heap_allocated w ∧ heap_deleted w' = heap_deleted w)
  ∨ (Z.land aChangeType (CHT_TYPE cht) = CHT_MODIFY cht
     ∧ clone ≠ nullptr
     ∧ heap_allocated w' = clone :: heap_allocated w
     ∧ (heap_deleted w' = heap_deleted w
        ∨ (heap_deleted w' = clone :: heap_deleted w ∧ self w' = self w))).
Proof.
  intros w' clone. subst w'.
  destruct (Z.eq_dec (Z.land aChangeType (CHT_TYPE cht)) (CHT_ADD cht))
    as [Hadd|Hadd].
  { left. rewrite Stage_add by done.
    by rewrite makeEntry_exec, !wxASSERT_exec. }
  destruct (Z.eq_dec (Z.land aChangeType (CHT_TYPE cht)) (CHT_REMOVE cht))
    as [Hrem|Hrem].
  { left. rewrite Stage_remove by done.
    by rewrite makeEntry_exec, !wxASSERT_exec. }
  destruct (Z.eq_dec (Z.land aChangeType (CHT_TYPE cht)) (CHT_MODIFY cht))
    as [Hmod|Hmod].
  { rewrite Stage_modify by done. simpl. fold clone.
    destruct (is_set clone) eqn:Hc.
    - right. split; [done|]. split.
      { intros Hnull. rewrite Hnull in Hc. discriminate. }
      rewrite createModified_exec. simpl.
      destruct (bool_decide _).
      + rewrite delete_exec, Hc, !wxASSERT_exec. simpl. auto.
      + rewrite makeEntry_exec, !wxASSERT_exec. simpl. auto.
    - left. by rewrite !wxASSERT_exec. }
  left. rewrite Stage_default by done. by rewrite !wxASSERT_exec.
Qed.

(** *** Looking up what was staged *)

Lemma findEntry_from_app_end l ent aItem aScreen :
  same_pair aItem aScreen ent = false →
  findEntry_from (l ++ [ent]) aItem aScreen = findEntry_from l aItem aScreen.
Proof.
  intros Hno. induction l as [|x l IH]; simpl; [by rewrite Hno|].
  by destruct (same_pair aItem aScreen x).
Qed.

Lemma findEntry_from_delete_if (f : COMMIT_LINE → bool) l aItem aScreen :
  (∀ e, f e = true → same_pair aItem aScreen e = false) →
  findEntry_from (delete_if f l) aItem aScreen
  = findEntry_from l aItem aScreen.
Proof.
  intros Hf. induction l as [|x l IH]; [done|].
  unfold delete_if in *. simpl.
  destruct (f x) eqn:Hx; simpl.
  - by rewrite (Hf x Hx).
  - by rewrite IH.
Qed.

(** After [Stage( item, CHT_ADD | f, screen )] or
    [Stage( item, CHT_REMOVE | f, screen )] in a ledger whose records are
    all for touched items, [GetStatus( i, screen )] returns that kind with
    the flags of [f] for every [i] whose parent is the item: the record
    just staged is the one the lookup finds, whatever was staged for the
    pair before. *)
Theorem GetStatus_after_Stage_add_or_remove
    aItem aChangeType aScreen aKind aQueried w :
  aKind = CHT_ADD cht ∨ aKind = CHT_REMOVE cht →
  Z.land aChangeType (CHT_TYPE cht) = aKind →
  touched_covers (self w) →
  parentObject aQueried = aItem →
  let status :=
    (GetStatus aQueried aScreen
       (exec (Stage aItem aChangeType aScreen) w)).1 in
  status = Z.lor aKind (Z.land aChangeType (CHT_FLAGS cht))
  ∧ Z.land status (CHT_TYPE cht) = aKind.
Proof.
  intros HK Hk Hcov Hparent status.
  assert (Hin_type : Z.land aKind (CHT_TYPE cht) = aKind).
  { destruct HK as [->| ->];
      [apply (cht_add_type cht cht_ok)|apply (cht_remove_type cht cht_ok)]. }
  assert (Hself : m_changes (self (exec (Stage aItem aChangeType aScreen) w))
    = (if bool_decide (aItem ∈ m_changedItems (self w))
       then delete_if (same_pair aItem aScreen) (m_changes (self w))
       else m_changes (self w))
      ++ [mkLine aItem (Z.lor aKind (Z.land aChangeType (CHT_FLAGS cht)))
            nullptr aScreen]).
  { destruct HK as [->| ->].
    - by rewrite Stage_add_self.
    - by rewrite Stage_remove_self. }
  assert (Hst : status = Z.lor aKind (Z.land aChangeType (CHT_FLAGS cht))).
  { subst status.
    unfold GetStatus, findEntry, bind, ret, get_self. simpl.
    rewrite Hparent, Hself, findEntry_from_app_skip.
    - simpl. unfold same_pair. simpl. by rewrite !N.eqb_refl.
    - intros e He.
      destruct (decide (aItem ∈ m_changedItems (self w))) as [Hin|Hout].
      + rewrite bool_decide_eq_true_2 in He by done.
        by apply delete_if_elem_false in He.
      + rewrite bool_decide_eq_false_2 in He by done.
        apply same_pair_false. intros [Hi _].
        apply Hout. rewrite <- Hi. by apply Hcov. }
  split; [done|]. rewrite Hst. by apply kind_lor_flags.
Qed.

(** *** What staging leaves alone *)

Lemma makeEntry_other_pair aItem aType aCopy aScreen i s w :
  same_pair i s (mkLine aItem aType aCopy aScreen) = false →
  findEntry_from
    (m_changes (self (exec (makeEntry aItem aType aCopy aScreen) w))) i s
  = findEntry_from (m_changes (self w)) i s.
Proof.
  intros Hno. rewrite makeEntry_exec. simpl.
  rewrite findEntry_from_app_end by done.
  destruct (bool_decide _); [|done].
  apply findEntry_from_delete_if.
  intros e [Hi Hs]%same_pair_true. apply same_pair_false.
  intros [Hi' Hs']. apply same_pair_false in Hno. apply Hno. simpl.
  split; congruence.
Qed.

Lemma createModified_other_pair aItem aCopy aExtraFlags aScreen i s w :
  ¬ (parentObject aItem = i ∧ aScreen = s) →
  findEntry_from
    (m_changes
       (self (exec (createModified aItem aCopy aExtraFlags aScreen) w))) i s
  = findEntry_from (m_changes (self w)) i s.
Proof.
  intros Hno. rewrite createModified_exec. destruct (bool_decide _).
  - rewrite delete_exec. by destruct (is_set aCopy).
  - apply makeEntry_other_pair. by apply same_pair_false.
Qed.

Lemma Stage_other_pair aItem aChangeType aScreen i s w :
  ¬ (aItem = i ∧ aScreen = s) →
  ¬ (parentObject (parentObject aItem) = i ∧ aScreen = s) →
  findEntry_from
    (m_changes (self (exec (Stage aItem aChangeType aScreen) w))) i s
  = findEntry_from (m_changes (self w)) i s.
Proof.
  intros Hitem Hparent.
  apply (Stage_cases
           (λ w', findEntry_from (m_changes (self w')) i s
                  = findEntry_from (m_changes (self w)) i s)).
  intros w1 Hs _ _. rewrite <- Hs.
  split; [|split; [|split]]; [| | |done].
  - apply makeEntry_other_pair. by apply same_pair_false.
  - apply makeEntry_other_pair. by apply same_pair_false.
  - intros clone _ _.
    by apply (createModified_other_pair _ _ _ _ _ _
                (mkWorld (self w1) (clone :: heap_allocated w1)
                         (heap_deleted w1) (wx_reported w1))).
Qed.

Lemma Stage_vector_other_screen container aChangeType aScreen i s w :
  aScreen ≠ s →
  findEntry_from
    (m_changes (self (exec (Stage_vector container aChangeType aScreen) w)))
    i s
  = findEntry_from (m_changes (self w)) i s.
Proof.
  intros Hne. revert w.
  induction container as [|item rest IH]; intros w; [done|].
  simpl. rewrite exec_bind, IH.
  apply Stage_other_pair; tauto.
Qed.

Lemma Stage_picked_other_screen aItems aModFlag aScreen i s w w' :
  aScreen ≠ s →
  Stage_picked aItems aModFlag aScreen w = Some w' →
  findEntry_from (m_changes (self w')) i s
  = findEntry_from (m_changes (self w)) i s.
Proof.
  intros Hne. revert w.
  induction aItems as [|p rest IH]; intros w Hrun; simpl in *.
  - by simplify_eq.
  - destruct (Stage_picker p aModFlag aScreen w) as [w1|] eqn:Hp;
      simplify_eq/=.
    rewrite (IH w1 Hrun).
    unfold Stage_picker, c_assert, Modified in Hp.
    destruct (is_set (picked_link p)).
    + destruct (NDEBUG || _); simplify_eq/=.
      apply createModified_other_pair. tauto.
    + destruct (convert _); simplify_eq/=.
      apply Stage_other_pair; tauto.
Qed.

(** The screens are kept apart: staging on one screen, with any of the
    three [Stage] overloads and whatever it is given, leaves what
    [GetStatus] returns for every item on every other screen as it was. *)
Theorem GetStatus_other_screen_unchanged aScreen aQueried aOtherScreen w :
  aScreen ≠ aOtherScreen →
  (∀ aItem aChangeType,
     (GetStatus aQueried aOtherScreen
        (exec (Stage aItem aChangeType aScreen) w)).1
     = (GetStatus aQueried aOtherScreen w).1)
  ∧ (∀ container aChangeType,
       (GetStatus aQueried aOtherScreen
          (exec (Stage_vector container aChangeType aScreen) w)).1
       = (GetStatus aQueried aOtherScreen w).1)
  ∧ (∀ aItems aModFlag w',
       Stage_picked aItems aModFlag aScreen w = Some w' →
       (GetStatus aQueried aOtherScreen w').1
       = (GetStatus aQueried aOtherScreen w).1).
Proof.
  intros Hne.
  unfold GetStatus, findEntry, bind, ret, get_self. simpl.
  split; [|split].
  - intros. rewrite Stage_other_pair; [done|tauto|tauto].
  - intros. by rewrite Stage_vector_other_screen.
  - intros aItems aModFlag w' Hrun.
    by rewrite (Stage_picked_other_screen _ _ _ _ _ _ _ Hne Hrun).
Qed.

(** The items are kept apart: [Stage( item, type, screen )] leaves what
    [GetStatus] returns, on any screen, as it was for every item whose
    parent is neither the item staged nor the parent the staging resolves
    it to. *)
Theorem GetStatus_other_item_unchanged
    aItem aChangeType aScreen aQueried aQueriedScreen w :
  parentObject aQueried ≠ aItem →
  parentObject aQueried ≠ parentObject (parentObject aItem) →
  (GetStatus aQueried aQueriedScreen
     (exec (Stage aItem aChangeType aScreen) w)).1
  = (GetStatus aQueried aQueriedScreen w).1.
Proof.
  intros H1 H2.
  unfold GetStatus, findEntry, bind, ret, get_self. simpl.
  rewrite Stage_other_pair; [done| |]; intros [? _]; congruence.
Qed.

(** *** Well-formed ledgers are kept *)

Lemma sublist_delete_if {A} (f : A → bool) l : sublist (delete_if f l) l.
Proof.
  unfold delete_if. induction l as [|x l IH]; simpl; [constructor|].
  destruct (negb (f x)); [by apply sublist_skip|by apply sublist_cons].
Qed.

Lemma sublist_List_map {A B} (f : A → B) l1 l2 :
  sublist l1 l2 → sublist (map f l1) (map f l2).
Proof.
  induction 1; simpl; [constructor|by apply sublist_skip|by apply sublist_cons].
Qed.

Lemma sublist_List_filter {A} (f : A → bool) l1 l2 :
  sublist l1 l2 → sublist (List.filter f l1) (List.filter f l2).
Proof.
  induction 1 as [|x l1 l2 _ IH|x l1 l2 _ IH]; simpl; [constructor| |].
  - destruct (f x); [by apply sublist_skip|done].
  - destruct (f x); [by apply sublist_cons|done].
Qed.

Lemma elem_of_List_map {A B} (f : A → B) l y :
  y ∈ map f l ↔ ∃ x, f x = y ∧ x ∈ l.
Proof.
  rewrite list_elem_of_In, List.in_map_iff.
  split; intros (x & Hx & Hin); exists x; by rewrite list_elem_of_In in *.
Qed.

Lemma elem_of_List_filter {A} (f : A → bool) l x :
  x ∈ List.filter f l ↔ x ∈ l ∧ f x = true.
Proof. by rewrite !list_elem_of_In, List.filter_In. Qed.

(** What [makeEntry] keeps of the old records: a part of them, none of
    which is filed under the pair of the new record. *)
Lemma makeEntry_kept aItem aScreen c :
  touched_covers c →
  let kept :=
    if bool_decide (aItem ∈ m_changedItems c)
    then delete_if (same_pair aItem aScreen) (m_changes c)
    else m_changes c in
  sublist kept (m_changes c)
  ∧ ∀ e, e ∈ kept → pair_of e ≠ (aItem, aScreen).
Proof.
  intros Hcov kept. subst kept.
  destruct (decide (aItem ∈ m_changedItems c)) as [Hin|Hout].
  - rewrite bool_decide_eq_true_2 by done.
    split; [apply sublist_delete_if|].
    intros e He%delete_if_elem_false Hp.
    apply same_pair_false in He. apply He.
    unfold pair_of in Hp. by simplify_eq.
  - rewrite bool_decide_eq_false_2 by done. split; [done|].
    intros e He Hp. apply Hout.
    unfold pair_of in Hp. simplify_eq. by apply Hcov.
Qed.

Lemma makeEntry_wf aItem aType aCopy aScreen w :
  ledger_wf (self w) →
  is_set aCopy = is_modify (mkLine aItem aType aCopy aScreen) →
  (is_modify (mkLine aItem aType aCopy aScreen) = true →
   aItem ∉ m_changedItems (self w)) →
  ledger_wf (self (exec (makeEntry aItem aType aCopy aScreen) w)).
Proof.
  intros (Hcov & Hpairs & Hcopy & Hmod) Hent Hnew.
  destruct (makeEntry_kept aItem aScreen (self w) Hcov) as [Hsub Hother].
  split; [by apply makeEntry_covers|].
  rewrite makeEntry_exec. simpl.
  set (kept := if bool_decide (aItem ∈ m_changedItems (self w))
               then delete_if (same_pair aItem aScreen) (m_changes (self w))
               else m_changes (self w)) in *.
  split; [|split].
  - rewrite List.map_app. apply NoDup_app. split; [|split].
    + eapply sublist_NoDup; [done|by apply sublist_List_map].
    + intros p (e & <- & He)%elem_of_List_map Hp.
      apply list_elem_of_singleton in Hp. by apply (Hother e).
    + apply NoDup_singleton.
  - intros ent [Hin| ->%list_elem_of_singleton]%elem_of_app; [|done].
    apply Hcopy. by eapply elem_of_sublist.
  - rewrite List.filter_app, List.map_app. simpl.
    destruct (is_modify (mkLine aItem aType aCopy aScreen)) eqn:Hm; simpl.
    + apply NoDup_app. split; [|split].
      * eapply sublist_NoDup; [done|].
        by apply sublist_List_map, sublist_List_filter.
      * intros i (e & <- & He)%elem_of_List_map Hi.
        apply list_elem_of_singleton in Hi.
        apply elem_of_List_filter in He as [He _].
        apply (Hnew eq_refl). rewrite <- Hi.
        apply Hcov. by eapply elem_of_sublist.
      * apply NoDup_singleton.
    + rewrite app_nil_r. eapply sublist_NoDup; [done|].
      by apply sublist_List_map, sublist_List_filter.
Qed.

Lemma is_modify_add aItem t aCopy aScreen :
  is_modify
    (mkLine aItem (Z.lor (CHT_ADD cht) (Z.land t (CHT_FLAGS cht)))
       aCopy aScreen) = false.
Proof.
  unfold is_modify. simpl.
  rewrite kind_lor_flags by apply (cht_add_type cht cht_ok).
  apply Z.eqb_neq, (cht_add_modify cht cht_ok).
Qed.

Lemma is_modify_remove aItem t aCopy aScreen :
  is_modify
    (mkLine aItem (Z.lor (CHT_REMOVE cht) (Z.land t (CHT_FLAGS cht)))
       aCopy aScreen) = false.
Proof.
  unfold is_modify. simpl.
  rewrite kind_lor_flags by apply (cht_remove_type cht cht_ok).
  apply Z.eqb_neq, (cht_remove_modify cht cht_ok).
Qed.

Lemma is_modify_modify aItem t aCopy aScreen :
  is_modify
    (mkLine aItem (Z.lor (CHT_MODIFY cht) (Z.land t (CHT_FLAGS cht)))
       aCopy aScreen) = true.
Proof.
  unfold is_modify. simpl.
  rewrite kind_lor_flags by apply (cht_modify_type cht cht_ok).
  apply Z.eqb_refl.
Qed.

Lemma createModified_wf aItem aCopy t aScreen w :
  ledger_wf (self w) →
  is_set aCopy = true →
  ledger_wf
    (self (exec (createModified aItem aCopy (Z.land t (CHT_FLAGS cht))
                   aScreen) w)).
Proof.
  intros Hwf Hset. rewrite createModified_exec.
  destruct (decide (parentObject aItem ∈ m_changedItems (self w)))
    as [Hin|Hout].
  - rewrite bool_decide_eq_true_2 by done.
    rewrite delete_exec. by destruct (is_set aCopy).
  - rewrite bool_decide_eq_false_2 by done.
    apply makeEntry_wf; [done| |done].
    by rewrite is_modify_modify.
Qed.

Lemma Stage_wf aItem aChangeType aScreen w :
  ledger_wf (self w) →
  ledger_wf (self (exec (Stage aItem aChangeType aScreen) w)).
Proof.
  intros Hwf. apply (Stage_cases (λ w', ledger_wf (self w'))).
  intros w1 Hs _ _. rewrite <- Hs in Hwf.
  split; [|split; [|split]]; [| | |done].
  - apply makeEntry_wf; [done| |]; by rewrite is_modify_add.
  - apply makeEntry_wf; [done| |]; by rewrite is_modify_remove.
  - intros clone _ Hset.
    by apply (createModified_wf _ _ _ _
                (mkWorld (self w1) (clone :: heap_allocated w1)
                         (heap_deleted w1) (wx_reported w1))).
Qed.

Lemma Stage_vector_wf container aChangeType aScreen w :
  ledger_wf (self w) →
  ledger_wf (self (exec (Stage_vector container aChangeType aScreen) w)).
Proof.
  revert w. induction container as [|item rest IH]; intros w Hwf; [done|].
  simpl. rewrite exec_bind. by apply IH, Stage_wf.
Qed.

Lemma Stage_picked_wf aItems aModFlag aScreen w w' :
  Stage_picked aItems aModFlag aScreen w = Some w' →
  ledger_wf (self w) → ledger_wf (self w').
Proof.
  revert w. induction aItems as [|p rest IH]; intros w Hrun Hwf; simpl in *.
  - by simplify_eq.
  - destruct (Stage_picker p aModFlag aScreen w) as [w1|] eqn:Hp;
      simplify_eq/=.
    eapply IH; [done|].
    unfold Stage_picker, c_assert, Modified in Hp.
    destruct (is_set (picked_link p)) eqn:Hl.
    + destruct (NDEBUG || _); simplify_eq/=.
      rewrite <- (Z.land_0_l (CHT_FLAGS cht)).
      by apply createModified_wf.
    + destruct (convert _); simplify_eq/=.
      by apply Stage_wf.
Qed.

Lemma reachable_wf P w : reachable P w → ledger_wf (self w).
Proof.
  induction 1 as [|w p _ IH _ _|w i t s _ IH|w c t s _ IH
                 |w l f s w' _ IH _ Hrun|w i s _ IH].
  - unfold ledger_wf. simpl. split; [|split; [|split]].
    + intros ent Hin. by apply elem_of_nil in Hin.
    + constructor.
    + intros ent Hin. by apply elem_of_nil in Hin.
    + constructor.
  - done.
  - by apply Stage_wf.
  - by apply Stage_vector_wf.
  - by eapply Stage_picked_wf.
  - done.
Qed.

Lemma length_filter_NoDup {A B} (f : A → B) (p : A → bool) (y : B) l :
  (∀ x, p x = true → f x = y) →
  NoDup (map f l) →
  (length (List.filter p l) ≤ 1)%nat.
Proof.
  intros Hp. induction l as [|x l IH]; simpl; [lia|].
  intros [Hx Hnd]%NoDup_cons.
  destruct (p x) eqn:Hpx; [|by apply IH].
  rewrite filter_none; [simpl; lia|].
  intros x' Hx'. destruct (p x') eqn:Hpx'; [|done].
  exfalso. apply Hx. apply elem_of_List_map. exists x'.
  split; [|done]. by rewrite (Hp x Hpx), (Hp x' Hpx').
Qed.

Lemma filter_at_most_one {A} (p : A → bool) l x y :
  (length (List.filter p l) ≤ 1)%nat →
  x ∈ l → p x = true → y ∈ l → p y = true → x = y.
Proof.
  intros Hlen Hx Hpx Hy Hpy.
  assert (Hx' : x ∈ List.filter p l) by by apply elem_of_List_filter.
  assert (Hy' : y ∈ List.filter p l) by by apply elem_of_List_filter.
  destruct (List.filter p l) as [|z [|z' rest]]; simpl in Hlen; [| |lia].
  - by apply elem_of_nil in Hx'.
  - apply list_elem_of_singleton in Hx', Hy'. congruence.
Qed.

(** In every world reached from a new [COMMIT] by its public operations the
    ledger has at most one record for each (item, screen) pair: the record
    [findEntry] returns is the only one of its pair. *)
Theorem reachable_one_record_per_pair P w aItem aScreen :
  reachable P w →
  (length (List.filter (same_pair aItem aScreen) (m_changes (self w))) ≤ 1)%nat.
Proof.
  intros (_ & Hpairs & _)%reachable_wf.
  apply (length_filter_NoDup pair_of _ (aItem, aScreen)); [|done].
  intros x [Hi Hs]%same_pair_true. unfold pair_of. by rewrite Hi, Hs.
Qed.

(** In every such world [GetStatus] finds every record: for a record of
    the ledger and an item whose parent is the item of the record,
    [GetStatus] on the screen of the record returns the type of that very
    record. *)
Theorem reachable_GetStatus_finds_record P w ent aItem :
  reachable P w →
  ent ∈ m_changes (self w) →
  parentObject aItem = m_item ent →
  (GetStatus aItem (m_screen ent) w).1 = m_type ent.
Proof.
  intros (_ & Hpairs & _)%reachable_wf Hin Hparent.
  unfold GetStatus, findEntry, bind, ret, get_self. simpl.
  rewrite Hparent.
  pose proof (findEntry_from_first (m_changes (self w)) (m_item ent)
                (m_screen ent)) as Hfind.
  assert (Hent : same_pair (m_item ent) (m_screen ent) ent = true).
  { by apply same_pair_true. }
  destruct (findEntry_from _ _ _) as [found|].
  - destruct Hfind as (before & after & Heq & _ & Hfound).
    f_equal.
    apply (filter_at_most_one (same_pair (m_item ent) (m_screen ent))
             (m_changes (self w))); try done.
    + apply (length_filter_NoDup pair_of _ (m_item ent, m_screen ent));
        [|done].
      intros x [Hi Hs]%same_pair_true. unfold pair_of. by rewrite Hi, Hs.
    + rewrite Heq. apply elem_of_app. right. apply list_elem_of_here.
  - rewrite (Hfind ent Hin) in Hent. discriminate.
Qed.

(** In every such world a record holds a snapshot exactly when its kind is
    [CHT_MODIFY]: what [makeEntry] asserts of the record it is given holds
    of every record of the ledger. *)
Theorem reachable_snapshot_iff_modify P w ent :
  reachable P w →
  ent ∈ m_changes (self w) →
  m_copy ent ≠ nullptr
  ↔ Z.land (m_type ent) (CHT_TYPE cht) = CHT_MODIFY cht.
Proof.
  intros (_ & _ & Hcopy & _)%reachable_wf Hin.
  specialize (Hcopy ent Hin). unfold is_set, is_modify in Hcopy.
  rewrite <- Z.eqb_eq, <- Hcopy, negb_true_iff, N.eqb_neq. done.
Qed.

(** In every such world at most one record of kind [CHT_MODIFY] is for a
    given item, whatever the screens the item was staged on: the ledger
    holds at most one snapshot of an item. *)
Theorem reachable_one_modify_per_item P w aItem :
  reachable P w →
  (length (List.filter (λ e, (m_item e =? aItem)%N)
             (List.filter is_modify (m_changes (self w)))) ≤ 1)%nat.
Proof.
  intros (_ & _ & _ & Hmod)%reachable_wf.
  apply (length_filter_NoDup m_item _ aItem); [|done].
  by intros x ?%N.eqb_eq.
Qed.

(** *** The assertion of [makeEntry] *)

(** Reports that name other sites do not bring in the given one. *)
Ltac not_this_site :=
  rewrite ?not_elem_of_app; repeat split; try done;
  repeat match goal with
         | |- context [if ?c then _ else _] => destruct c
         end;
  intros Hin;
  repeat (apply elem_of_cons in Hin as [?|Hin]; [done|]);
  by apply elem_of_nil in Hin.

Lemma makeEntry_consistent aItem aType aCopy aScreen w :
  is_set aCopy = is_modify (mkLine aItem aType aCopy aScreen) →
  wx_reported (exec (makeEntry aItem aType aCopy aScreen) w) = wx_reported w.
Proof.
  intros He. rewrite makeEntry_exec. simpl.
  unfold is_modify in He. simpl in He. rewrite He.
  rewrite Bool.eqb_reflx. apply app_nil_r.
Qed.

Lemma createModified_consistent aItem aCopy t aScreen w :
  is_set aCopy = true →
  wx_reported
    (exec (createModified aItem aCopy (Z.land t (CHT_FLAGS cht)) aScreen) w)
  = wx_reported w.
Proof.
  intros Hset. rewrite createModified_exec. destruct (bool_decide _).
  - by rewrite delete_exec, Hset.
  - apply makeEntry_consistent. by rewrite is_modify_modify.
Qed.

Lemma Stage_makeEntry_silent aItem aChangeType aScreen w :
  WX_MAKEENTRY_COPY ∉ wx_reported w →
  WX_MAKEENTRY_COPY ∉ wx_reported (exec (Stage aItem aChangeType aScreen) w).
Proof.
  intros Hw.
  destruct (Z.eq_dec (Z.land aChangeType (CHT_TYPE cht)) (CHT_ADD cht))
    as [Hadd|Hadd].
  { rewrite Stage_add by done.
    rewrite makeEntry_consistent by by rewrite is_modify_add.
    rewrite !wxASSERT_exec. simpl. not_this_site. }
  destruct (Z.eq_dec (Z.land aChangeType (CHT_TYPE cht)) (CHT_REMOVE cht))
    as [Hrem|Hrem].
  { rewrite Stage_remove by done.
    rewrite makeEntry_consistent by by rewrite is_modify_remove.
    rewrite !wxASSERT_exec. simpl. not_this_site. }
  destruct (Z.eq_dec (Z.land aChangeType (CHT_TYPE cht)) (CHT_MODIFY cht))
    as [Hmod|Hmod].
  { rewrite Stage_modify by done. simpl.
    destruct (is_set (makeImage _ _ _)) eqn:Hc.
    - rewrite createModified_consistent by done.
      rewrite !wxASSERT_exec. simpl. not_this_site.
    - rewrite !wxASSERT_exec. simpl. not_this_site. }
  rewrite Stage_default by done.
  rewrite !wxASSERT_exec. simpl. not_this_site.
Qed.

Lemma Stage_vector_makeEntry_silent container aChangeType aScreen w :
  WX_MAKEENTRY_COPY ∉ wx_reported w →
  WX_MAKEENTRY_COPY
  ∉ wx_reported (exec (Stage_vector container aChangeType aScreen) w).
Proof.
  revert w. induction container as [|item rest IH]; intros w Hw; [done|].
  simpl. rewrite exec_bind. by apply IH, Stage_makeEntry_silent.
Qed.

Lemma Stage_picked_makeEntry_silent aItems aModFlag aScreen w w' :
  Stage_picked aItems aModFlag aScreen w = Some w' →
  WX_MAKEENTRY_COPY ∉ wx_reported w →
  WX_MAKEENTRY_COPY ∉ wx_reported w'.
Proof.
  revert w. induction aItems as [|p rest IH]; intros w Hrun Hw; simpl in *.
  - by simplify_eq.
  - destruct (Stage_picker p aModFlag aScreen w) as [w1|] eqn:Hp;
      simplify_eq/=.
    eapply IH; [done|].
    unfold Stage_picker, c_assert, Modified in Hp.
    destruct (is_set (picked_link p)) eqn:Hl.
    + destruct (NDEBUG || _); simplify_eq/=.
      rewrite <- (Z.land_0_l (CHT_FLAGS cht)).
      by rewrite createModified_consistent.
    + destruct (convert _); simplify_eq/=.
      by apply Stage_makeEntry_silent.
Qed.

(** The assertion of [makeEntry], that a copy comes with [CHT_MODIFY] and
    only with it, never fails in a transaction driven through the public
    operations: no world reached from a new [COMMIT] has a report of it,
    whatever change types, items and history lists the calls were given. *)
Theorem reachable_makeEntry_assertion_holds P w :
  reachable P w →
  WX_MAKEENTRY_COPY ∉ wx_reported w.
Proof.
  induction 1 as [|w p _ IH _ _|w i t s _ IH|w c t s _ IH
                 |w l f s w' _ IH _ Hrun|w i s _ IH].
  - by intros ?%elem_of_nil.
  - done.
  - by apply Stage_makeEntry_silent.
  - by apply Stage_vector_makeEntry_silent.
  - by eapply Stage_picked_makeEntry_silent.
  - done.
Qed.

(** *** History lists that go through *)

Lemma Stage_picker_is_Some p aModFlag aScreen w :
  is_Some (Stage_picker p aModFlag aScreen w)
  ↔ NDEBUG = true ∨ picker_accepted aModFlag p = true.
Proof.
  unfold Stage_picker, picker_accepted, c_assert, convert, effective_status.
  destruct (is_set (picked_link p)).
  - destruct NDEBUG; simpl.
    + split; [by left|by eexists].
    + destruct (is_CHANGED _); simpl.
      * split; [by right|by eexists].
      * split; [by intros [? ?]|by intros [?|?]].
  - destruct NDEBUG;
      destruct (match picked_status p with
                | UNSPECIFIED => aModFlag
                | t => t
                end); simpl;
      (split; [intros [? ?]; by auto|intros [?|?]; by eauto]).
Qed.

(** The loop over a history list runs to its end, whatever the ledger,
    exactly when the build defines [NDEBUG] or every entry passes the
    assertions: an entry with a link has the status [CHANGED], one without
    a link has [NEWITEM], [DELETED] or [CHANGED] (the default standing in
    for [UNSPECIFIED]).  In a build with [NDEBUG] no list is refused. *)
Theorem Stage_picked_completes_iff aItems aModFlag aScreen w :
  is_Some (Stage_picked aItems aModFlag aScreen w)
  ↔ NDEBUG = true ∨ forallb (picker_accepted aModFlag) aItems = true.
Proof.
  revert w. induction aItems as [|p rest IH]; intros w; simpl.
  - split; [by right|by eexists].
  - pose proof (Stage_picker_is_Some p aModFlag aScreen w) as Hp.
    destruct (Stage_picker p aModFlag aScreen w) as [w1|]; simpl.
    + rewrite IH, andb_true_iff.
      destruct Hp as [Hp _]. destruct (Hp (mk_is_Some _ _ eq_refl)); tauto.
    + split; [by intros [? ?]|].
      rewrite andb_true_iff. intros Hok.
      apply Hp. tauto.
Qed.

(** *** Vectors of items *)

Lemma Stage_add_untouched aItem aChangeType aScreen w :
  Z.land aChangeType (CHT_TYPE cht) = CHT_ADD cht →
  aItem ∉ m_changedItems (self w) →
  exec (Stage aItem aChangeType aScreen) w =
  mkWorld
    (mkCommit
       (m_changes (self w)
        ++ [mkLine aItem
              (Z.lor (CHT_ADD cht) (Z.land aChangeType (CHT_FLAGS cht)))
              nullptr aScreen])
       ({[aItem]} ∪ m_changedItems (self w)))
    (heap_allocated w) (heap_deleted w)
    (wx_reported w ++
     (if negb (Z.land aChangeType (Z.lor (CHT_MODIFY cht) (CHT_DONE cht))
               =? Z.lor (CHT_MODIFY cht) (CHT_DONE cht))
      then [] else [WX_STAGE_MODIFY_DONE])).
Proof.
  intros Hk Hnew. rewrite Stage_add by done.
  rewrite makeEntry_exec, !wxASSERT_exec. simpl.
  rewrite bool_decide_eq_false_2 by done. simpl.
  rewrite kind_lor_flags by apply (cht_add_type cht cht_ok).
  destruct (Z.eqb_spec (CHT_ADD cht) (CHT_MODIFY cht)) as [He|_].
  { by apply (cht_add_modify cht cht_ok) in He. }
  simpl. by rewrite !app_nil_r.
Qed.

(** [Stage( container, CHT_ADD | f, screen )] for a vector of pairwise
    distinct items none of which is touched: one record of kind [CHT_ADD]
    without snapshot is appended for each item, in the order of the vector,
    all the items are touched afterwards, the free store is not used, and
    the assertion that an added item is untouched is not reported. *)
Theorem Stage_vector_add_untouched container aChangeType aScreen w :
  Z.land aChangeType (CHT_TYPE cht) = CHT_ADD cht →
  NoDup container →
  (∀ item, item ∈ container → item ∉ m_changedItems (self w)) →
  let w' := exec (Stage_vector container aChangeType aScreen) w in
  m_changes (self w') =
    m_changes (self w)
    ++ map (λ item,
              mkLine item
                (Z.lor (CHT_ADD cht) (Z.land aChangeType (CHT_FLAGS cht)))
                nullptr aScreen) container
  ∧ (∀ item, item ∈ m_changedItems (self w')
             ↔ item ∈ container ∨ item ∈ m_changedItems (self w))
  ∧ heap_allocated w' = heap_allocated w
  ∧ heap_deleted w' = heap_deleted w
  ∧ ∃ reports,
      wx_reported w' = wx_reported w ++ reports
      ∧ ∀ site, site ∈ reports → site = WX_STAGE_MODIFY_DONE.
Proof.
  intros Hk. revert w.
  induction container as [|item rest IH]; intros w Hnd Hnew; simpl.
  - rewrite app_nil_r. repeat split; try done.
    + intros Hin. by right.
    + intros [Hin%elem_of_nil|Hin]; done.
    + exists []. rewrite app_nil_r. split; [done|].
      by intros site ?%elem_of_nil.
  - apply NoDup_cons in Hnd as [Hitem Hnd].
    rewrite exec_bind.
    assert (Hfirst : item ∉ m_changedItems (self w)).
    { apply Hnew, list_elem_of_here. }
    rewrite (Stage_add_untouched item) by done.
    set (w1 := mkWorld _ _ _ _).
    destruct (IH w1 Hnd) as (Hch & Ht & Ha & Hd & reports & Hwx & Hsites).
    { intros i Hi. subst w1. simpl.
      apply not_elem_of_union. split.
      - apply not_elem_of_singleton. intros ->. done.
      - apply Hnew. by apply list_elem_of_further. }
    split; [|split; [|split; [|split]]].
    + rewrite Hch. subst w1. simpl. by rewrite <- app_assoc.
    + intros i. rewrite Ht. subst w1. simpl.
      rewrite elem_of_union, elem_of_singleton, elem_of_cons. tauto.
    + by rewrite Ha.
    + by rewrite Hd.
    + eexists. rewrite Hwx. subst w1. simpl. rewrite <- app_assoc.
      split; [done|].
      intros site [Hs|Hs]%elem_of_app; [|by apply Hsites].
      destruct (negb _); [by apply elem_of_nil in Hs|].
      by apply list_elem_of_singleton in Hs.
Qed.

(** A history list without links whose entries all have a status that
    [convert] takes to the same change type is staged as the vector of its
    items with that change type: the two overloads leave the same world. *)
Theorem Stage_picked_as_vector aItems aModFlag aScreen aChangeType w :
  (∀ p, p ∈ aItems →
        picked_link p = nullptr
        ∧ convert (effective_status aModFlag p) = Some aChangeType) →
  Stage_picked aItems aModFlag aScreen w
  = Some (exec (Stage_vector (map picked_item aItems) aChangeType aScreen) w).
Proof.
  revert w. induction aItems as [|p rest IH]; intros w Hall; [done|].
  simpl. rewrite exec_bind.
  destruct (Hall p (list_elem_of_here _ _)) as [Hl Hc].
  unfold Stage_picker. fold (effective_status aModFlag p).
  rewrite Hl, Hc. simpl.
  apply IH. intros q Hq. apply Hall. by apply list_elem_of_further.
Qed.

(** *** A copy that is missing *)

(** [createModified] given [nullptr] for the copy.  For a touched parent
    the call does nothing at all: [delete] of [nullptr] is empty.  For an
    untouched parent [makeEntry] reports its assertion and goes on: a
    record of kind [CHT_MODIFY] that holds no snapshot is appended and the
    parent is touched. *)
Theorem createModified_null_copy aItem aChangeType aScreen w :
  let parent := parentObject aItem in
  let flags := Z.land aChangeType (CHT_FLAGS cht) in
  let w' := exec (createModified aItem nullptr flags aScreen) w in
  (parent ∈ m_changedItems (self w) → w' = w)
  ∧ (parent ∉ m_changedItems (self w) →
     m_changes (self w') =
       m_changes (self w)
       ++ [mkLine parent (Z.lor (CHT_MODIFY cht) flags) nullptr aScreen]
     ∧ m_changedItems (self w') = {[parent]} ∪ m_changedItems (self w)
     ∧ wx_reported w' = wx_reported w ++ [WX_MAKEENTRY_COPY]
     ∧ heap_deleted w' = heap_deleted w).
Proof.
  intros parent flags w'. subst w'.
  rewrite createModified_exec. fold parent. split.
  - intros Hin. by rewrite bool_decide_eq_true_2.
  - intros Hout. rewrite bool_decide_eq_false_2 by done.
    rewrite makeEntry_exec. simpl.
    rewrite bool_decide_eq_false_2 by done.
    subst flags.
    rewrite kind_lor_flags by apply (cht_modify_type cht cht_ok).
    by rewrite Z.eqb_refl.
Qed.

End COMMIT.

(** ** Concrete runs

    With KiCad's enumerators, items that are their own parents and the
    allocator [bump]. *)

Lemma kicad_cht_ok : CHANGE_TYPE_ok kicad_cht.
Proof. by constructor. Qed.

Lemma bump_above allocated x :
  x ∈ allocated → (x <= foldr N.max 0 allocated)%N.
Proof.
  induction allocated as [|y l IH]; [by intros ?%elem_of_nil|].
  intros [->|Hx]%elem_of_cons; simpl; [lia|].
  specialize (IH Hx). lia.
Qed.

Lemma bump_allocates : makeImage_allocates bump.
Proof.
  intros aItem allocated deleted _ Hin.
  apply bump_above in Hin. unfold bump in Hin. lia.
Qed.

Lemma touched_covers_new : touched_covers COMMIT_new.
Proof. intros ent Hin. by apply elem_of_nil in Hin. Qed.

(** The supersede scenario: a removal of item 1 on screen 6 is in the
    ledger; item 1 is then added and removed on screen 5. *)
Lemma Stage_add_then_remove_supersedes_witness :
  let w := exec (Stage kicad_cht id bump 1%N 2 6%N) world0 in
  let w' := exec (Stage kicad_cht id bump 1%N 1 5%N ;;
                  Stage kicad_cht id bump 1%N 10 5%N) w in
  CHANGE_TYPE_ok kicad_cht
  ∧ Z.land 1 (CHT_TYPE kicad_cht) = CHT_ADD kicad_cht
  ∧ Z.land 10 (CHT_TYPE kicad_cht) = CHT_REMOVE kicad_cht
  ∧ List.filter (same_pair 1%N 5%N) (m_changes (self w'))
    = [mkLine 1%N 10 nullptr 5%N]
  ∧ List.filter (same_pair 1%N 6%N) (m_changes (self w'))
    = [mkLine 1%N 2 nullptr 6%N].
Proof.
  intros w w'.
  pose proof (Stage_add_then_remove_supersedes kicad_cht id bump
                kicad_cht_ok 1%N 1 10 5%N w eq_refl eq_refl)
    as (H1 & _ & _ & H4).
  split; [exact kicad_cht_ok|]. split; [reflexivity|].
  split; [reflexivity|]. split; [exact H1|].
  transitivity (List.filter (same_pair 1%N 6%N) (m_changes (self w)));
    [apply (H4 6%N); lia | reflexivity].
Defined.

(** The free store is exhausted when item 1 is to be modified. *)
Lemma Stage_modify_clone_failure_witness :
  let w' := exec (Stage kicad_cht id no_memory 1%N 4 5%N) world0 in
  CHANGE_TYPE_ok kicad_cht
  ∧ Z.land 4 (CHT_TYPE kicad_cht) = CHT_MODIFY kicad_cht
  ∧ no_memory (id 1%N) (heap_allocated world0) (heap_deleted world0)
    = nullptr
  ∧ self w' = self world0
  ∧ heap_deleted w' = heap_deleted world0.
Proof.
  intros w'.
  pose proof (Stage_modify_clone_failure kicad_cht id no_memory
                kicad_cht_ok 1%N 4 5%N world0 eq_refl eq_refl)
    as (H1 & _ & _ & _ & H5 & _).
  split; [exact kicad_cht_ok|]. split; [reflexivity|].
  split; [reflexivity|]. split; [exact H1|exact H5].
Defined.

(** A copy for an untouched item is adopted. *)
Lemma createModified_discards_iff_touched_witness :
  let w' := exec (createModified kicad_cht id 1%N 9%N 0 5%N) world0 in
  is_set 9%N = true
  ∧ m_changes (self w') = [mkLine 1%N 4 9%N 5%N]
  ∧ heap_allocated w' = [].
Proof.
  intros w'.
  pose proof (createModified_discards_iff_touched kicad_cht id
                1%N 9%N 0 5%N world0 eq_refl)
    as (_ & H2 & H3).
  split; [reflexivity|]. split; [|exact H3].
  apply H2. simpl. apply not_elem_of_empty.
Defined.

(** Item 1 is added to a new ledger. *)
Lemma Stage_add_reports_and_appends_witness :
  let w' := exec (Stage kicad_cht id bump 1%N 1 5%N) world0 in
  CHANGE_TYPE_ok kicad_cht
  ∧ Z.land 1 (CHT_TYPE kicad_cht) = CHT_ADD kicad_cht
  ∧ m_changes (self w') = [mkLine 1%N 1 nullptr 5%N]
  ∧ m_changedItems (self w') = {[1%N]} ∪ ∅.
Proof.
  intros w'.
  pose proof (Stage_add_reports_and_appends kicad_cht id bump
                kicad_cht_ok 1%N 1 5%N world0 eq_refl)
    as (_ & _ & _ & H4 & _ & H6 & _).
  split; [exact kicad_cht_ok|]. split; [reflexivity|].
  split; [|exact H6].
  apply H4. simpl. apply not_elem_of_empty.
Defined.

(** Item 1 is modified twice in a new ledger; the clones are 1 and 2. *)
Lemma Stage_modify_twice_first_snapshot_witness :
  let w1 := exec (Stage kicad_cht id bump 1%N 4 5%N) world0 in
  let w2 := exec (Stage kicad_cht id bump 1%N 4 5%N) w1 in
  CHANGE_TYPE_ok kicad_cht
  ∧ Z.land 4 (CHT_TYPE kicad_cht) = CHT_MODIFY kicad_cht
  ∧ is_set (bump (id 1%N) (heap_allocated world0) (heap_deleted world0))
    = true
  ∧ is_set (bump (id 1%N) (heap_allocated w1) (heap_deleted w1)) = true
  ∧ self w2 = self w1
  ∧ heap_deleted w2 = [2%N]
  ∧ List.filter (λ e, (m_item e =? 1)%N) (m_changes (self w2))
    = [mkLine 1%N 4 1%N 5%N].
Proof.
  intros w1 w2.
  assert (Hnew : id (id 1%N) ∉ m_changedItems (self world0)).
  { simpl. apply not_elem_of_empty. }
  pose proof (Stage_modify_twice_first_snapshot kicad_cht id bump
                kicad_cht_ok 1%N 4 5%N world0 eq_refl eq_refl eq_refl)
    as ([H1 H2] & _ & H3 & _).
  destruct (H3 Hnew) as (_ & _ & H4).
  split; [exact kicad_cht_ok|]. split; [reflexivity|].
  split; [reflexivity|]. split; [reflexivity|].
  split; [exact H1|]. split; [exact H2|].
  exact (H4 touched_covers_new).
Defined.

(** Item 1 is modified in a new ledger and its status is asked for. *)
Lemma GetStatus_after_Stage_modify_witness :
  Z.land 4 (CHT_TYPE kicad_cht) = CHT_MODIFY kicad_cht
  ∧ id (id 1%N) = id 1%N
  ∧ (id 1%N ∉ m_changedItems (self world0))
  ∧ (GetStatus id 1%N 5%N
       (exec (Stage kicad_cht id bump 1%N 4 5%N) world0)).1 = 4
  ∧ (GetStatus id 1%N 5%N world0).1 = 0.
Proof.
  assert (Hnew : id 1%N ∉ m_changedItems (self world0)).
  { simpl. apply not_elem_of_empty. }
  pose proof (GetStatus_after_Stage_modify kicad_cht id bump
                kicad_cht_ok 1%N 4 5%N world0) as (H1 & _ & H2).
  split; [reflexivity|]. split; [reflexivity|]. split; [exact Hnew|].
  split.
  - exact (proj1 (H1 eq_refl touched_covers_new eq_refl Hnew eq_refl)).
  - apply H2. intros e He. by apply elem_of_nil in He.
Defined.

(** A history list entry for item 1 with the clone 9 and status CHANGED, in
    a build without [NDEBUG]. *)
Lemma Stage_picked_mapping_witness :
  let p := mkPicker 1%N CHANGED 9%N in
  is_set (picked_link p) = true
  ∧ (id (picked_item p) ∉ m_changedItems (self world0))
  ∧ Stage_picker kicad_cht id bump false p UNSPECIFIED 5%N world0
    = Some (exec (createModified kicad_cht id 1%N 9%N 0 5%N) world0)
  ∧ m_changes (self (exec (createModified kicad_cht id 1%N 9%N 0 5%N)
                       world0))
    = [mkLine 1%N 4 9%N 5%N].
Proof.
  intros p.
  assert (Hnew : id (picked_item p) ∉ m_changedItems (self world0)).
  { simpl. apply not_elem_of_empty. }
  pose proof (Stage_picked_mapping kicad_cht id bump false p []
                UNSPECIFIED 5%N world0) as (_ & _ & H3 & _).
  destruct (H3 eq_refl) as (Hrun & _ & Hrec).
  split; [reflexivity|]. split; [exact Hnew|].
  split; [exact Hrun|exact (Hrec Hnew)].
Defined.

(** The world after item 1 was added. *)
Lemma reachable_records_touched_witness :
  let w := exec (Stage kicad_cht id bump 1%N 1 5%N) world0 in
  reachable kicad_cht id bump false any_list w
  ∧ ∀ ent, ent ∈ m_changes (self w) → m_item ent ∈ m_changedItems (self w).
Proof.
  intros w.
  assert (Hr : reachable kicad_cht id bump false any_list w).
  { apply reach_Stage, reach_new. }
  split; [exact Hr|].
  exact (proj1 (reachable_records_touched kicad_cht id bump false
                  kicad_cht_ok any_list w Hr)).
Defined.

(** The ledger is destroyed after item 1 was modified; its snapshot is the
    clone 1. *)
Lemma dtor_releases_owned_once_witness :
  let w := exec (Stage kicad_cht id bump 1%N 4 5%N) world0 in
  makeImage_allocates bump
  ∧ reachable kicad_cht id bump false hands_over w
  ∧ count_occ N.eq_dec (heap_deleted w) 1%N = 0%nat
  ∧ count_occ N.eq_dec (heap_deleted (exec COMMIT_dtor w)) 1%N = 1%nat.
Proof.
  intros w.
  assert (Hr : reachable kicad_cht id bump false hands_over w).
  { apply reach_Stage, reach_new. }
  pose proof (dtor_releases_owned_once kicad_cht id bump false
                kicad_cht_ok w bump_allocates Hr) as (_ & H2 & _).
  split; [exact bump_allocates|]. split; [exact Hr|].
  apply (H2 (mkLine 1%N 4 1%N 5%N)).
  - apply list_elem_of_here.
  - discriminate.
Defined.

(** ** Where the specification and the code part *)

(** C1 as stated fails: item 1 was added in this transaction and is then
    modified twice.  Both clones are released and the ledger has no record
    of kind [CHT_MODIFY] at all. *)
Lemma Stage_modify_twice_of_added_item :
  let w := exec (Stage kicad_cht id bump 1%N 1 5%N) world0 in
  let w2 := exec (Stage kicad_cht id bump 1%N 4 5%N ;;
                  Stage kicad_cht id bump 1%N 4 5%N) w in
  m_changes (self w2) = [mkLine 1%N 1 nullptr 5%N]
  ∧ length (List.filter
              (λ e, Z.land (m_type e) (CHT_TYPE kicad_cht)
                    =? CHT_MODIFY kicad_cht)
              (m_changes (self w2))) = 0%nat
  ∧ heap_deleted w2 = [2%N; 1%N]
  ∧ wx_reported w2 = [].
Proof. by vm_compute. Qed.

(** C3 as stated fails: item 1 is touched by a record of kind [CHT_ADD]
    only, and [createModified] releases the copy 9 and leaves the ledger as
    it is. *)
Lemma createModified_discards_after_add :
  let w := exec (Stage kicad_cht id bump 1%N 1 5%N) world0 in
  let w' := exec (createModified kicad_cht id 1%N 9%N 0 5%N) w in
  m_changes (self w) = [mkLine 1%N 1 nullptr 5%N]
  ∧ self w' = self w
  ∧ heap_deleted w' = [9%N].
Proof. by split; [|split]. Qed.

(** C4 as stated fails: the second [CHT_ADD] of item 1 is reported, and is
    carried out: the ledger has a second record of the item. *)
Lemma Stage_add_twice_goes_on :
  let w1 := exec (Stage kicad_cht id bump 1%N 1 5%N) world0 in
  let w2 := exec (Stage kicad_cht id bump 1%N 1 6%N) w1 in
  bool_decide (1%N ∈ m_changedItems (self w1)) = true
  ∧ wx_reported w2 = [WX_STAGE_ADD_TOUCHED]
  ∧ m_changes (self w2)
    = [mkLine 1%N 1 nullptr 5%N; mkLine 1%N 1 nullptr 6%N].
Proof. by vm_compute. Qed.

(** C5 as stated fails: in a build with [NDEBUG], an entry whose status is
    none of the four is not fatal; it is staged as a modification. *)
Lemma Stage_picked_other_status_NDEBUG :
  ∃ w', Stage_picked kicad_cht id bump true
          [mkPicker 1%N (OTHER 4) nullptr] UNSPECIFIED 5%N world0 = Some w'
        ∧ m_changes (self w') = [mkLine 1%N 4 1%N 5%N]
        ∧ wx_reported w' = [].
Proof. eexists. by split; [|split]. Qed.

(** C6 as stated fails: item 1 was added in this transaction; staging its
    modification reports nothing, and [GetStatus] returns [CHT_ADD]. *)
Lemma GetStatus_after_modify_of_added_item :
  let w := exec (Stage kicad_cht id bump 1%N 1 5%N) world0 in
  let w' := exec (Stage kicad_cht id bump 1%N 4 5%N) w in
  is_set (bump (id 1%N) (heap_allocated w) (heap_deleted w)) = true
  ∧ wx_reported w' = []
  ∧ (GetStatus id 1%N 5%N w').1 = CHT_ADD kicad_cht
  ∧ Z.land (GetStatus id 1%N 5%N w').1 (CHT_TYPE kicad_cht)
    ≠ CHT_MODIFY kicad_cht.
Proof. by vm_compute. Qed.

(** The supersede step and the snapshots.  Item 1 is modified, then removed
    on the same screen: [makeEntry] erases the record that held the clone 1,
    and neither that step nor the destructor passes the clone to
    [delete]. *)
Example superseded_snapshot_is_not_deleted :
  let w := exec (Stage kicad_cht id bump 1%N 4 5%N ;;
                 Stage kicad_cht id bump 1%N 2 5%N) world0 in
  m_changes (self w) = [mkLine 1%N 2 nullptr 5%N]
  ∧ heap_allocated w = [1%N]
  ∧ heap_deleted (exec COMMIT_dtor w) = [].
Proof. by vm_compute. Qed.

(** ** Concrete runs of the further properties *)

Lemma touched_covers_after_add :
  touched_covers (self (exec (Stage kicad_cht id bump 1%N 1 6%N) world0)).
Proof.
  apply (Stage_covers kicad_cht id bump kicad_cht_ok), touched_covers_new.
Qed.

(** Item 1 was modified on screen 5 and is now removed there, with the
    flag [CHT_DONE]. *)
Lemma Stage_remove_appends_witness :
  let w := exec (Stage kicad_cht id bump 1%N 4 5%N) world0 in
  let w' := exec (Stage kicad_cht id bump 1%N 10 5%N) w in
  CHANGE_TYPE_ok kicad_cht
  ∧ Z.land 10 (CHT_TYPE kicad_cht) = CHT_REMOVE kicad_cht
  ∧ m_changes (self w') = [mkLine 1%N 10 nullptr 5%N]
  ∧ heap_deleted w' = heap_deleted w.
Proof.
  intros w w'.
  pose proof (Stage_remove_appends kicad_cht id bump kicad_cht_ok
                1%N 10 5%N w eq_refl) as (H1 & _ & _ & _ & H5 & _).
  split; [exact kicad_cht_ok|]. split; [reflexivity|].
  split; [|exact H5].
  transitivity
    ((if bool_decide (1%N ∈ m_changedItems (self w))
      then delete_if (same_pair 1%N 5%N) (m_changes (self w))
      else m_changes (self w)) ++ [mkLine 1%N 10 nullptr 5%N]);
    [exact H1|reflexivity].
Defined.

(** Item 1 is removed twice on screen 5 in a new ledger. *)
Lemma Stage_remove_idempotent_witness :
  CHANGE_TYPE_ok kicad_cht
  ∧ Z.land 2 (CHT_TYPE kicad_cht) = CHT_REMOVE kicad_cht
  ∧ touched_covers (self world0)
  ∧ self (exec (Stage kicad_cht id bump 1%N 2 5%N ;;
                Stage kicad_cht id bump 1%N 2 5%N) world0)
    = self (exec (Stage kicad_cht id bump 1%N 2 5%N) world0).
Proof.
  split; [exact kicad_cht_ok|]. split; [reflexivity|].
  split; [exact touched_covers_new|].
  exact (Stage_remove_idempotent kicad_cht id bump kicad_cht_ok
           1%N 2 5%N world0 eq_refl touched_covers_new).
Defined.

(** The change type [CHT_ADD | CHT_REMOVE]. *)
Lemma Stage_unknown_kind_witness :
  let w' := exec (Stage kicad_cht id bump 1%N 3 5%N) world0 in
  Z.land 3 (CHT_TYPE kicad_cht) ≠ CHT_ADD kicad_cht
  ∧ Z.land 3 (CHT_TYPE kicad_cht) ≠ CHT_REMOVE kicad_cht
  ∧ Z.land 3 (CHT_TYPE kicad_cht) ≠ CHT_MODIFY kicad_cht
  ∧ self w' = self world0
  ∧ heap_allocated w' = heap_allocated world0.
Proof.
  intros w'.
  assert (Ha : Z.land 3 (CHT_TYPE kicad_cht) ≠ CHT_ADD kicad_cht)
    by discriminate.
  assert (Hr : Z.land 3 (CHT_TYPE kicad_cht) ≠ CHT_REMOVE kicad_cht)
    by discriminate.
  assert (Hm : Z.land 3 (CHT_TYPE kicad_cht) ≠ CHT_MODIFY kicad_cht)
    by discriminate.
  pose proof (Stage_unknown_kind kicad_cht id bump 1%N 3 5%N world0
                Ha Hr Hm) as (H1 & H2 & _).
  split; [exact Ha|]. split; [exact Hr|]. split; [exact Hm|].
  split; [exact H1|exact H2].
Defined.

(** The change type [CHT_MODIFY | CHT_DONE]. *)
Lemma Stage_modify_done_reported_witness :
  let w' := exec (Stage kicad_cht id bump 1%N 12 5%N) world0 in
  CHANGE_TYPE_ok kicad_cht
  ∧ ∃ rest, wx_reported w' = [WX_STAGE_MODIFY_DONE] ++ rest
            ∧ WX_STAGE_MODIFY_DONE ∉ rest.
Proof.
  intros w'. split; [exact kicad_cht_ok|].
  destruct (Stage_modify_done_reported kicad_cht id bump kicad_cht_ok
              1%N 12 5%N world0) as (first & rest & Hwx & Hrest & Hboth & _).
  exists rest. split; [|exact Hrest].
  rewrite <- (Hboth (conj eq_refl eq_refl)). exact Hwx.
Defined.

(** Item 2 is removed after item 1 was added. *)
Lemma touched_set_only_grows_witness :
  let w := exec (Stage kicad_cht id bump 1%N 1 6%N) world0 in
  CHANGE_TYPE_ok kicad_cht
  ∧ m_changedItems (self w)
    ⊆ m_changedItems (self (exec (Stage kicad_cht id bump 2%N 2 5%N) w)).
Proof.
  intros w. split; [exact kicad_cht_ok|].
  exact (proj1 (touched_set_only_grows kicad_cht id bump false kicad_cht_ok
                  5%N w) 2%N 2).
Defined.

(** Item 1 is modified in a new ledger: one clone, kept. *)
Lemma Stage_free_store_witness :
  let w' := exec (Stage kicad_cht id bump 1%N 4 5%N) world0 in
  CHANGE_TYPE_ok kicad_cht
  ∧ (heap_deleted w' = [] ∨ heap_deleted w' = [1%N]).
Proof.
  intros w'. split; [exact kicad_cht_ok|].
  destruct (Stage_free_store kicad_cht id bump kicad_cht_ok
              1%N 4 5%N world0) as [[_ Hd]|(_ & _ & _ & [Hd|[Hd _]])].
  - left. exact Hd.
  - left. exact Hd.
  - right. exact Hd.
Defined.

(** Item 1 was added on screen 6 and is removed there with [CHT_DONE]. *)
Lemma GetStatus_after_Stage_add_or_remove_witness :
  let w := exec (Stage kicad_cht id bump 1%N 1 6%N) world0 in
  CHANGE_TYPE_ok kicad_cht
  ∧ (2 = CHT_ADD kicad_cht ∨ 2 = CHT_REMOVE kicad_cht)
  ∧ Z.land 10 (CHT_TYPE kicad_cht) = 2
  ∧ touched_covers (self w)
  ∧ id 1%N = 1%N
  ∧ (GetStatus id 1%N 6%N (exec (Stage kicad_cht id bump 1%N 10 6%N) w)).1
    = 10.
Proof.
  intros w.
  split; [exact kicad_cht_ok|]. split; [right; reflexivity|].
  split; [reflexivity|]. split; [exact touched_covers_after_add|].
  split; [reflexivity|].
  exact (proj1 (GetStatus_after_Stage_add_or_remove kicad_cht id bump
                  kicad_cht_ok 1%N 10 6%N 2 1%N w (or_intror eq_refl)
                  eq_refl touched_covers_after_add eq_refl)).
Defined.

(** Item 1 was added on screen 6; it is then removed on screen 5. *)
Lemma GetStatus_other_screen_unchanged_witness :
  let w := exec (Stage kicad_cht id bump 1%N 1 6%N) world0 in
  CHANGE_TYPE_ok kicad_cht
  ∧ 5%N ≠ 6%N
  ∧ (GetStatus id 1%N 6%N (exec (Stage kicad_cht id bump 1%N 2 5%N) w)).1
    = (GetStatus id 1%N 6%N w).1.
Proof.
  intros w.
  assert (Hne : 5%N ≠ 6%N) by discriminate.
  split; [exact kicad_cht_ok|]. split; [exact Hne|].
  exact (proj1 (GetStatus_other_screen_unchanged kicad_cht id bump false
                  kicad_cht_ok 5%N 1%N 6%N w Hne) 1%N 2).
Defined.

(** Item 1 was added on screen 6; item 2 is then removed there. *)
Lemma GetStatus_other_item_unchanged_witness :
  let w := exec (Stage kicad_cht id bump 1%N 1 6%N) world0 in
  CHANGE_TYPE_ok kicad_cht
  ∧ id 1%N ≠ 2%N
  ∧ id 1%N ≠ id (id 2%N)
  ∧ (GetStatus id 1%N 6%N (exec (Stage kicad_cht id bump 2%N 2 6%N) w)).1
    = (GetStatus id 1%N 6%N w).1.
Proof.
  intros w.
  assert (H1 : id 1%N ≠ 2%N) by discriminate.
  assert (H2 : id 1%N ≠ id (id 2%N)) by discriminate.
  split; [exact kicad_cht_ok|]. split; [exact H1|]. split; [exact H2|].
  exact (GetStatus_other_item_unchanged kicad_cht id bump kicad_cht_ok
           2%N 2 6%N 1%N 6%N w H1 H2).
Defined.

(** The world after item 1 was modified on screen 5. *)
Lemma reachable_one_record_per_pair_witness :
  let w := exec (Stage kicad_cht id bump 1%N 4 5%N) world0 in
  CHANGE_TYPE_ok kicad_cht
  ∧ reachable kicad_cht id bump false any_list w
  ∧ (length (List.filter (same_pair 1%N 5%N) (m_changes (self w))) ≤ 1)%nat.
Proof.
  intros w.
  assert (Hr : reachable kicad_cht id bump false any_list w).
  { apply reach_Stage, reach_new. }
  split; [exact kicad_cht_ok|]. split; [exact Hr|].
  exact (reachable_one_record_per_pair kicad_cht id bump false kicad_cht_ok
           any_list w 1%N 5%N Hr).
Defined.

Lemma reachable_GetStatus_finds_record_witness :
  let w := exec (Stage kicad_cht id bump 1%N 4 5%N) world0 in
  let ent := mkLine 1%N 4 1%N 5%N in
  CHANGE_TYPE_ok kicad_cht
  ∧ reachable kicad_cht id bump false any_list w
  ∧ ent ∈ m_changes (self w)
  ∧ id 1%N = m_item ent
  ∧ (GetStatus id 1%N 5%N w).1 = 4.
Proof.
  intros w ent.
  assert (Hr : reachable kicad_cht id bump false any_list w).
  { apply reach_Stage, reach_new. }
  assert (Hin : ent ∈ m_changes (self w)) by apply list_elem_of_here.
  split; [exact kicad_cht_ok|]. split; [exact Hr|]. split; [exact Hin|].
  split; [reflexivity|].
  exact (reachable_GetStatus_finds_record kicad_cht id bump false
           kicad_cht_ok any_list w ent 1%N Hr Hin eq_refl).
Defined.

Lemma reachable_snapshot_iff_modify_witness :
  let w := exec (Stage kicad_cht id bump 1%N 4 5%N) world0 in
  let ent := mkLine 1%N 4 1%N 5%N in
  CHANGE_TYPE_ok kicad_cht
  ∧ reachable kicad_cht id bump false any_list w
  ∧ ent ∈ m_changes (self w)
  ∧ (m_copy ent ≠ nullptr
     ↔ Z.land (m_type ent) (CHT_TYPE kicad_cht) = CHT_MODIFY kicad_cht).
Proof.
  intros w ent.
  assert (Hr : reachable kicad_cht id bump false any_list w).
  { apply reach_Stage, reach_new. }
  assert (Hin : ent ∈ m_changes (self w)) by apply list_elem_of_here.
  split; [exact kicad_cht_ok|]. split; [exact Hr|]. split; [exact Hin|].
  exact (reachable_snapshot_iff_modify kicad_cht id bump false
           kicad_cht_ok any_list w ent Hr Hin).
Defined.

Lemma reachable_one_modify_per_item_witness :
  let w := exec (Stage kicad_cht id bump 1%N 4 5%N) world0 in
  CHANGE_TYPE_ok kicad_cht
  ∧ reachable kicad_cht id bump false any_list w
  ∧ (length (List.filter (λ e, (m_item e =? 1)%N)
               (List.filter (is_modify kicad_cht) (m_changes (self w))))
     ≤ 1)%nat.
Proof.
  intros w.
  assert (Hr : reachable kicad_cht id bump false any_list w).
  { apply reach_Stage, reach_new. }
  split; [exact kicad_cht_ok|]. split; [exact Hr|].
  exact (reachable_one_modify_per_item kicad_cht id bump false kicad_cht_ok
           any_list w 1%N Hr).
Defined.

Lemma reachable_makeEntry_assertion_holds_witness :
  let w := exec (Stage kicad_cht id bump 1%N 4 5%N) world0 in
  CHANGE_TYPE_ok kicad_cht
  ∧ reachable kicad_cht id bump false any_list w
  ∧ WX_MAKEENTRY_COPY ∉ wx_reported w.
Proof.
  intros w.
  assert (Hr : reachable kicad_cht id bump false any_list w).
  { apply reach_Stage, reach_new. }
  split; [exact kicad_cht_ok|]. split; [exact Hr|].
  exact (reachable_makeEntry_assertion_holds kicad_cht id bump false
           kicad_cht_ok any_list w Hr).
Defined.

(** Items 1 and 2 are added as a vector to a new ledger. *)
Lemma Stage_vector_add_untouched_witness :
  let w' := exec (Stage_vector kicad_cht id bump [1%N; 2%N] 1 5%N) world0 in
  CHANGE_TYPE_ok kicad_cht
  ∧ Z.land 1 (CHT_TYPE kicad_cht) = CHT_ADD kicad_cht
  ∧ NoDup [1%N; 2%N]
  ∧ (∀ item, item ∈ [1%N; 2%N] → item ∉ m_changedItems (self world0))
  ∧ m_changes (self w')
    = [mkLine 1%N 1 nullptr 5%N; mkLine 2%N 1 nullptr 5%N].
Proof.
  intros w'.
  assert (Hnd : NoDup [1%N; 2%N]).
  { apply NoDup_cons. split; [|apply NoDup_singleton].
    intros Hin. apply list_elem_of_singleton in Hin. discriminate. }
  assert (Hnew : ∀ item, item ∈ [1%N; 2%N] →
                         item ∉ m_changedItems (self world0)).
  { intros item _. simpl. apply not_elem_of_empty. }
  split; [exact kicad_cht_ok|]. split; [reflexivity|].
  split; [exact Hnd|]. split; [exact Hnew|].
  exact (proj1 (Stage_vector_add_untouched kicad_cht id bump kicad_cht_ok
                  [1%N; 2%N] 1 5%N world0 eq_refl Hnd Hnew)).
Defined.

(** A history list of two new items, the second by the default status. *)
Lemma Stage_picked_as_vector_witness :
  let aItems := [mkPicker 1%N NEWITEM nullptr;
                 mkPicker 2%N UNSPECIFIED nullptr] in
  (∀ p, p ∈ aItems →
        picked_link p = nullptr
        ∧ convert kicad_cht false (effective_status NEWITEM p) = Some 1)
  ∧ Stage_picked kicad_cht id bump false aItems NEWITEM 5%N world0
    = Some (exec (Stage_vector kicad_cht id bump [1%N; 2%N] 1 5%N) world0).
Proof.
  intros aItems.
  assert (Hall : ∀ p, p ∈ aItems →
            picked_link p = nullptr
            ∧ convert kicad_cht false (effective_status NEWITEM p) = Some 1).
  { intros p Hp. subst aItems.
    apply elem_of_cons in Hp as [->|Hp]; [by split|].
    apply list_elem_of_singleton in Hp as ->. by split. }
  split; [exact Hall|].
  exact (Stage_picked_as_vector kicad_cht id bump false aItems NEWITEM
           5%N 1 world0 Hall).
Defined.

(** [createModified] for item 1 with no copy, in a new ledger. *)
Lemma createModified_null_copy_witness :
  let w' := exec (createModified kicad_cht id 1%N nullptr 0 5%N) world0 in
  CHANGE_TYPE_ok kicad_cht
  ∧ m_changes (self w') = [mkLine 1%N 4 nullptr 5%N]
  ∧ wx_reported w' = [WX_MAKEENTRY_COPY].
Proof.
  intros w'.
  pose proof (createModified_null_copy kicad_cht id kicad_cht_ok
                1%N 0 5%N world0) as [_ H2].
  assert (Hnew : id 1%N ∉ m_changedItems (self world0)).
  { simpl. apply not_elem_of_empty. }
  destruct (H2 Hnew) as (Hch & _ & Hwx & _).
  split; [exact kicad_cht_ok|]. split; [exact Hch|exact Hwx].
Defined.
